(** * xpense: the store, the reducers, the derived views and the pie chart

    A shallow embedding of the expense tracker's JavaScript sources
    ([store.js] and [utils/charts.js], the two modules [app.js] imports,
    and the self-contained [main.js]) and the properties proved of them.

    Conventions of the embedding.
    - A JavaScript number is an IEEE 754 binary64 value: [float], with the
      kernel's primitive operations; sums, quotients and comparisons are
      the code's.  The only facts taken from their specification are
      about comparisons with [Infinity] and [NaN].
    - A callback that reads a property of [undefined] throws a TypeError.
      Functions that can throw return a [completion].
    - An array is a [list]; an object of fixed shape is a [Record], and
      the spread [{...o, f: v}] is written out field by field. *)

From Stdlib Require Import Floats Ascii String ZArith Lia.
From stdpp Require Import base option list strings gmap.

Open Scope string_scope.
Open Scope list_scope.

(** ** Completions: normal return or a thrown TypeError *)

Inductive completion (A : Type) : Type :=
| Normal (a : A)
| TypeError.
Arguments Normal {A} a.
Arguments TypeError {A}.

#[global] Instance completion_ret : MRet completion := @Normal.
#[global] Instance completion_bind : MBind completion :=
  fun A B (k : A -> completion B) (m : completion A) =>
    match m with
    | Normal a => k a
    | TypeError => TypeError
    end.

(** ** JavaScript numbers *)

Module Num.

Definition zero : float := 0%float.
Definition Infinity : float := PrimFloat.infinity.
Definition NaN : float := PrimFloat.nan.

(** [Math.PI], the binary64 value nearest to pi. *)
Definition PI : float := 0x1.921fb54442d18p+1%float.

(** [ToBoolean] on a number: false for [+0], [-0] and [NaN]. *)
Definition truthy (x : float) : bool :=
  negb (PrimFloat.eqb x zero || PrimFloat.is_nan x).

(** [a >= b], [a <= b], [a > b] and [a === b] on numbers. *)
Definition ge (a b : float) : bool := PrimFloat.leb b a.
Definition le (a b : float) : bool := PrimFloat.leb a b.
Definition gt (a b : float) : bool := PrimFloat.ltb b a.
Definition strict_eq (a b : float) : bool := PrimFloat.eqb a b.

End Num.

(** ** Data model *)

(** A transaction object, as the form handler builds it. *)
Record Transaction : Type := mkTransaction {
  tx_id : string;
  tx_description : string;
  tx_amount : float;
  tx_type : string;
  tx_category : string;
  tx_date : string
}.

(** What an element of [state.transactions], an [ADD_TRANSACTION] payload
    or the [data] of a history entry can be: a transaction object, or
    [undefined] (the result of a [find] that matched nothing). *)
Inductive JsTx : Type :=
| undefined
| obj (t : Transaction).

(** [{ type: 'ADD' | 'DELETE', data }] *)
Record HistoryEntry : Type := mkHistoryEntry {
  h_type : string;
  h_data : JsTx
}.

(** [state.filters].  [minPrice] and [maxPrice] are absent from the
    initial state of [store.js]: [None] is the missing property. *)
Record FilterState : Type := mkFilterState {
  search : string;
  category : string;
  dateRange : string;
  minPrice : option float;
  maxPrice : option float
}.

(** The payload of [SET_FILTER]: an object with some of the keys of
    [FilterState]; [None] is a key the payload does not have. *)
Record FilterPatch : Type := mkFilterPatch {
  p_search : option string;
  p_category : option string;
  p_dateRange : option string;
  p_minPrice : option float;
  p_maxPrice : option float
}.

Record State : Type := mkState {
  transactions : list JsTx;
  history : list HistoryEntry;
  theme : string;
  currency : string;
  filters : FilterState;
  persist : bool
}.

(** [{ type, payload }].  [UNKNOWN ty] is an action whose [type] is none
    of the five strings below. *)
Inductive Action : Type :=
| ADD_TRANSACTION (payload : JsTx)
| DELETE_TRANSACTION (payload : string)
| SET_THEME (payload : string)
| SET_CURRENCY (payload : string)
| SET_FILTER (payload : FilterPatch)
| UNKNOWN (type : string).

(** ** Array methods with a callback that can throw *)

Section ArrayMethods.
Context {A : Type}.

(** [arr.find(cb)]: the first element [cb] accepts, [undefined]
    (here: [dflt]) when there is none. *)
Fixpoint js_find (dflt : A) (cb : A -> completion bool) (arr : list A)
  : completion A :=
  match arr with
  | [] => Normal dflt
  | x :: rest =>
      b ← cb x;
      if b : bool then Normal x else js_find dflt cb rest
  end.

(** [arr.filter(cb)]: [cb] is called on every element, in order. *)
Fixpoint js_filter (cb : A -> completion bool) (arr : list A)
  : completion (list A) :=
  match arr with
  | [] => Normal []
  | x :: rest =>
      b ← cb x;
      kept ← js_filter cb rest;
      Normal (if b : bool then x :: kept else kept)
  end.

(** [arr.slice(0, n)] *)
Definition slice0 (n : nat) (arr : list A) : list A := take n arr.

End ArrayMethods.

(** Property reads [t.id], [t.type], ... on an array element. *)
Definition get_prop {B : Type} (f : Transaction -> B) (t : JsTx) : completion B :=
  match t with
  | obj o => Normal (f o)
  | undefined => TypeError
  end.

(** [{ ...state.filters, ...action.payload }] *)
Definition merge_filters (fs : FilterState) (p : FilterPatch) : FilterState :=
  {| search := default (search fs) (p_search p);
     category := default (category fs) (p_category p);
     dateRange := default (dateRange fs) (p_dateRange p);
     minPrice := match p_minPrice p with Some v => Some v | None => minPrice fs end;
     maxPrice := match p_maxPrice p with Some v => Some v | None => maxPrice fs end |}.

(** ** store.js *)

Module Store.

(** [expenseReducer] of [store.js]. *)
Definition expenseReducer (state : State) (action : Action) : completion State :=
  match action with
  | ADD_TRANSACTION payload =>
      Normal {| transactions := payload :: transactions state;
                history := slice0 50 ({| h_type := "ADD"; h_data := payload |} :: history state);
                theme := theme state;
                currency := currency state;
                filters := filters state;
                persist := persist state |}
  | DELETE_TRANSACTION payload =>
      deletedItem ← js_find undefined
                      (fun t => i ← get_prop tx_id t; Normal (String.eqb i payload))
                      (transactions state);
      kept ← js_filter
               (fun t => i ← get_prop tx_id t; Normal (negb (String.eqb i payload)))
               (transactions state);
      Normal {| transactions := kept;
                history := slice0 50 ({| h_type := "DELETE"; h_data := deletedItem |} :: history state);
                theme := theme state;
                currency := currency state;
                filters := filters state;
                persist := persist state |}
  | SET_THEME payload =>
      Normal {| transactions := transactions state;
                history := history state;
                theme := payload;
                currency := currency state;
                filters := filters state;
                persist := persist state |}
  | SET_CURRENCY payload =>
      Normal {| transactions := transactions state;
                history := history state;
                theme := theme state;
                currency := payload;
                filters := filters state;
                persist := persist state |}
  | SET_FILTER payload =>
      Normal {| transactions := transactions state;
                history := history state;
                theme := theme state;
                currency := currency state;
                filters := merge_filters (filters state) payload;
                persist := persist state |}
  | UNKNOWN _ => Normal state
  end.

(** The state used when [localStorage] holds none. *)
Definition initialState : State :=
  {| transactions := [];
     history := [];
     theme := "dark";
     currency := "USD";
     filters := {| search := ""; category := "all"; dateRange := "all";
                   minPrice := None; maxPrice := None |};
     persist := true |}.

End Store.

(** ** main.js *)

Module Main.

(** [expenseReducer] of [main.js]: its [switch] has no
    ['SET_CURRENCY'] case, so that action reaches [default]. *)
Definition expenseReducer (state : State) (action : Action) : completion State :=
  match action with
  | ADD_TRANSACTION payload =>
      Normal {| transactions := payload :: transactions state;
                history := slice0 50 ({| h_type := "ADD"; h_data := payload |} :: history state);
                theme := theme state;
                currency := currency state;
                filters := filters state;
                persist := persist state |}
  | DELETE_TRANSACTION payload =>
      deletedItem ← js_find undefined
                      (fun t => i ← get_prop tx_id t; Normal (String.eqb i payload))
                      (transactions state);
      kept ← js_filter
               (fun t => i ← get_prop tx_id t; Normal (negb (String.eqb i payload)))
               (transactions state);
      Normal {| transactions := kept;
                history := slice0 50 ({| h_type := "DELETE"; h_data := deletedItem |} :: history state);
                theme := theme state;
                currency := currency state;
                filters := filters state;
                persist := persist state |}
  | SET_THEME payload =>
      Normal {| transactions := transactions state;
                history := history state;
                theme := payload;
                currency := currency state;
                filters := filters state;
                persist := persist state |}
  | SET_FILTER payload =>
      Normal {| transactions := transactions state;
                history := history state;
                theme := theme state;
                currency := currency state;
                filters := merge_filters (filters state) payload;
                persist := persist state |}
  | SET_CURRENCY _ | UNKNOWN _ => Normal state
  end.

Definition initialState : State :=
  {| transactions := [];
     history := [];
     theme := "dark";
     currency := "USD";
     filters := {| search := ""; category := "all"; dateRange := "all";
                   minPrice := Some Num.zero; maxPrice := Some Num.Infinity |};
     persist := true |}.

End Main.

(** ** createStore (store.js lines 4-29, main.js lines 4-29) *)

(** A listener is a function object; [indexOf] compares listeners by
    identity, which a number stands for.  What a listener does when it is
    called is outside the model, and it is taken not to call back into
    the store.  Whether it throws is a parameter of [Notifying.dispatch]
    below, as is whether the write to [localStorage] throws; [dispatch]
    is the case where neither does. *)
Definition Listener : Type := nat.

(** [arr.indexOf(x)]: the first index of [x], [-1] when absent. *)
Fixpoint indexOf (x : Listener) (arr : list Listener) : Z :=
  match arr with
  | [] => (-1)%Z
  | y :: rest =>
      if Nat.eqb y x then 0%Z
      else let i := indexOf x rest in
           if (i <? 0)%Z then (-1)%Z else (i + 1)%Z
  end.

(** [arr.splice(start, deleteCount)], the array left behind: a negative
    [start] counts from the end, and both bounds are clamped. *)
Definition splice {A : Type} (start deleteCount : Z) (arr : list A) : list A :=
  let len := Z.of_nat (length arr) in
  let actualStart :=
    if (start <? 0)%Z then Z.max (len + start) 0 else Z.min start len in
  let actualDeleteCount := Z.min (Z.max deleteCount 0) (len - actualStart) in
  take (Z.to_nat actualStart) arr
    ++ drop (Z.to_nat (actualStart + actualDeleteCount)) arr.

(** The closure of [createStore]: its two variables, and the two effects
    of [dispatch] on the outside, the calls of listeners (oldest first)
    and the item ['expense_tracker_state'] of [localStorage]: the state
    that was last handed to [JSON.stringify] and written, [None] while
    nothing was written.  What parsing the item back gives is not
    modelled. *)
Record StoreObj : Type := mkStoreObj {
  st_state : State;
  st_listeners : list Listener;
  st_called : list Listener;
  st_saved : option State
}.

Section CreateStore.
Variable reducer : State -> Action -> completion State.

Definition createStore (initialState : State) (saved : option State) : StoreObj :=
  {| st_state := initialState; st_listeners := [];
     st_called := []; st_saved := saved |}.

Definition getState (store : StoreObj) : State := st_state store.

(** [dispatch] in a store whose listeners return and whose writes
    succeed: when the reducer throws, the assignment to [state] does not
    happen and the closure is as before.  The state it leaves is the
    state [Notifying.dispatch] leaves, whatever the listeners and the
    storage do ([dispatch_state_whatever_listeners]). *)
Definition dispatch (store : StoreObj) (action : Action) : completion StoreObj :=
  state' ← reducer (st_state store) action;
  Normal {| st_state := state';
            st_listeners := st_listeners store;
            st_called := st_called store ++ st_listeners store;
            st_saved := if persist state' then Some state' else st_saved store |}.

(** [subscribe(listener)]: the new closure; the function it returns is
    [unsubscribe listener]. *)
Definition subscribe (store : StoreObj) (listener : Listener) : StoreObj :=
  {| st_state := st_state store;
     st_listeners := st_listeners store ++ [listener];
     st_called := st_called store;
     st_saved := st_saved store |}.

Definition unsubscribe (listener : Listener) (store : StoreObj) : StoreObj :=
  let index := indexOf listener (st_listeners store) in
  {| st_state := st_state store;
     st_listeners := splice index 1 (st_listeners store);
     st_called := st_called store;
     st_saved := st_saved store |}.

(** A dispatch whose exception is not caught by the caller: an event
    handler that ends with it leaves the store as it was. *)
Definition dispatch_event (store : StoreObj) (action : Action) : StoreObj :=
  match dispatch store action with
  | Normal store' => store'
  | TypeError => store
  end.

(** [window.deleteTransaction] *)
Definition deleteTransaction (store : StoreObj) (id : string) : completion StoreObj :=
  dispatch store (DELETE_TRANSACTION id).

(** [window.undoLastAction] (main.js lines 426-435, app.js lines 315-326) *)
Definition undoLastAction (store : StoreObj) : completion StoreObj :=
  let state := getState store in
  match history state with
  | [] => Normal store
  | lastAction :: _ =>
      if String.eqb (h_type lastAction) "ADD" then
        i ← get_prop tx_id (h_data lastAction);
        dispatch store (DELETE_TRANSACTION i)
      else if String.eqb (h_type lastAction) "DELETE" then
        dispatch store (ADD_TRANSACTION (h_data lastAction))
      else Normal store
  end.

End CreateStore.

(** The actions of the two price inputs (main.js lines 360-366, app.js
    lines 241-247), [parsed] being [parseFloat(e.target.value)]:
    [{ minPrice: parsed || 0 }] and [{ maxPrice: parsed || Infinity }]. *)
Definition minPriceAction (parsed : float) : Action :=
  SET_FILTER {| p_search := None; p_category := None; p_dateRange := None;
                p_minPrice := Some (if Num.truthy parsed then parsed else Num.zero);
                p_maxPrice := None |}.

Definition maxPriceAction (parsed : float) : Action :=
  SET_FILTER {| p_search := None; p_category := None; p_dateRange := None;
                p_minPrice := None;
                p_maxPrice := Some (if Num.truthy parsed then parsed else Num.Infinity) |}.

(** ** dispatch with listeners that can throw *)

Module Notifying.

(** What a call leaves behind, and whether it ended by an exception. *)
Record Outcome : Type := mkOutcome {
  after : StoreObj;
  threw : bool
}.

Section WithListeners.
Variable reducer : State -> Action -> completion State.

(** [throws l s]: the call of the listener [l], made while the state of
    the store is [s], throws.  (The listener both scripts subscribe calls
    the render functions, which read [t.type] of every element of
    [s.transactions].) *)
Variable throws : Listener -> State -> bool.

(** [full s]: the call
    [localStorage.setItem('expense_tracker_state', JSON.stringify(s))]
    throws, the storage being full or refused; the item is then as it
    was. *)
Variable full : State -> bool.

(** [listeners.forEach(listener => listener())]: the listeners called, in
    order, up to and including the first one that throws, and whether
    one threw. *)
Fixpoint notify (state : State) (listeners : list Listener) : list Listener * bool :=
  match listeners with
  | [] => ([], false)
  | l :: rest =>
      if throws l state then ([l], true)
      else let '(called, t) := notify state rest in (l :: called, t)
  end.

(** [dispatch]: the state is assigned first; an exception of a listener
    ends the round and skips the write to [localStorage]; the write comes
    last and can throw too. *)
Definition dispatch (store : StoreObj) (action : Action) : Outcome :=
  match reducer (st_state store) action with
  | TypeError => {| after := store; threw := true |}
  | Normal state' =>
      let '(called, t) := notify state' (st_listeners store) in
      let closure saved :=
        {| st_state := state';
           st_listeners := st_listeners store;
           st_called := st_called store ++ called;
           st_saved := saved |} in
      if t then {| after := closure (st_saved store); threw := true |}
      else if persist state' then
        if full state' then {| after := closure (st_saved store); threw := true |}
        else {| after := closure (Some state'); threw := false |}
      else {| after := closure (st_saved store); threw := false |}
  end.



(** A sequence of dispatches, each from an event handler of its own: an
    exception ends the handler, not the store. *)
Definition dispatch_all (store : StoreObj) (actions : list Action) : StoreObj :=
  fold_left (fun st a => after (dispatch st a)) actions store.

End WithListeners.
End Notifying.

(** ** Derived views (app.js and main.js) *)

(** [arr.reduce(cb, init)] *)
Fixpoint js_reduce {A B : Type} (cb : B -> A -> completion B) (init : B)
  (arr : list A) : completion B :=
  match arr with
  | [] => Normal init
  | x :: rest => acc ← cb init x; js_reduce cb acc rest
  end.

(** [s.includes(sub)] *)
Fixpoint includes (s sub : string) : bool :=
  String.prefix sub s ||
  match s with
  | EmptyString => false
  | String _ rest => includes rest sub
  end.

(** [!x] for a property that holds a number or is missing. *)
Definition js_not (x : option float) : bool :=
  match x with
  | None => true
  | Some v => negb (Num.truthy v)
  end.

(** [a >= x] and [a <= x] for such a property: a comparison with
    [undefined] is false. *)
Definition ge_prop (a : float) (x : option float) : bool :=
  match x with Some v => Num.ge a v | None => false end.
Definition le_prop (a : float) (x : option float) : bool :=
  match x with Some v => Num.le a v | None => false end.

(** [const matchesMin = !filters.minPrice || t.amount >= filters.minPrice] *)
Definition matchesMin (filters : FilterState) (t : Transaction) : bool :=
  js_not (minPrice filters) || ge_prop (tx_amount t) (minPrice filters).

(** [const matchesMax = !filters.maxPrice || t.amount <= filters.maxPrice] *)
Definition matchesMax (filters : FilterState) (t : Transaction) : bool :=
  js_not (maxPrice filters) || le_prop (tx_amount t) (maxPrice filters).

Section Views.
(** [String.prototype.toLowerCase] and the four comparisons of
    [new Date(t.date)] with the current time are the platform's. *)
Variable toLowerCase : string -> string.
Variables sameDay withinWeek sameMonth sameYear : string -> bool.

Definition matchesDate (filters : FilterState) (t : Transaction) : bool :=
  if String.eqb (dateRange filters) "today" then sameDay (tx_date t)
  else if String.eqb (dateRange filters) "week" then withinWeek (tx_date t)
  else if String.eqb (dateRange filters) "month" then sameMonth (tx_date t)
  else if String.eqb (dateRange filters) "year" then sameYear (tx_date t)
  else true.

(** The callback of [transactions.filter] in [renderTransactions]
    (main.js lines 264-286, app.js lines 127-151). *)
Definition matchesFilters (filters : FilterState) (t : JsTx) : completion bool :=
  match t with
  | undefined => TypeError
  | obj o =>
      let matchesSearch :=
        includes (toLowerCase (tx_description o)) (toLowerCase (search filters)) in
      let matchesCategory :=
        String.eqb (category filters) "all"
        || String.eqb (tx_category o) (category filters) in
      Normal (matchesSearch && matchesCategory && matchesDate filters o
              && matchesMin filters o && matchesMax filters o)
  end.

(** [filtered] of [renderTransactions]. *)
Definition filtered (state : State) : completion (list JsTx) :=
  js_filter (matchesFilters (filters state)) (transactions state).

End Views.

(** [income], [expense] and [total] of [renderDashboard]
    (main.js lines 181-192, app.js lines 39-50). *)
Definition sumOfType (ty : string) (txs : list JsTx) : completion float :=
  selected ← js_filter (fun t => y ← get_prop tx_type t; Normal (String.eqb y ty)) txs;
  js_reduce (fun acc t => a ← get_prop tx_amount t; Normal (acc + a)%float)
            Num.zero selected.

Record Totals : Type := mkTotals {
  income : float;
  expense : float;
  total : float
}.

Definition dashboardTotals (state : State) : completion Totals :=
  i ← sumOfType "income" (transactions state);
  e ← sumOfType "expense" (transactions state);
  Normal {| income := i; expense := e; total := (i - e)%float |}.

(** ** utils/charts.js (main.js lines 79-132) *)

(** Markup is the text of a template literal with its substitutions kept
    apart: [Number x] stands for the decimal text of the number [x]. *)
Inductive Frag : Type :=
| Text (s : string)
| Number (x : float).

Definition Markup : Type := list Frag.

(** The double quote character. *)
Definition Q : Frag := Text (String "034"%char EmptyString).

(** An entry of [data]: [{ label, value, color }]. *)
Record Slice : Type := mkSlice {
  label : string;
  value : float;
  color : string
}.

Module Charts.
Local Open Scope float_scope.

Definition width : float := 200.
Definition height : float := 200.
Definition radius : float := 80.
Definition centerX : float := width / 2.
Definition centerY : float := height / 2.

Definition noData : Markup :=
  [Text "<p style="; Q; Text "color: var(--text-secondary); font-size: 0.875rem;"; Q;
   Text ">No data to display</p>"].

Definition svgOpen : Markup :=
  [Text "<svg width="; Q; Number width; Q; Text " height="; Q; Number height; Q;
   Text " viewBox="; Q; Text "0 0 "; Number width; Text " "; Number height; Q; Text ">"].

Definition pathData (x1 y1 largeArcFlag x2 y2 : float) : Markup :=
  [Text "
      M "; Number centerX; Text " "; Number centerY; Text "
      L "; Number x1; Text " "; Number y1; Text "
      A "; Number radius; Text " "; Number radius; Text " 0 "; Number largeArcFlag;
   Text " 1 "; Number x2; Text " "; Number y2; Text "
      Z
    "].

Definition pathElement (d : Markup) (slice : Slice) : Markup :=
  ([Text "
      <path d="; Q] ++ d ++
   [Q; Text " fill="; Q; Text (color slice); Q; Text " stroke="; Q; Text "var(--card-bg)"; Q;
   Text " stroke-width="; Q; Text "2"; Q; Text ">
        <title>"; Text (label slice); Text ": "; Number (value slice); Text "</title>
      </path>
    "])%list.

Definition innerCircle : Markup :=
  [Text "<circle cx="; Q; Number centerX; Q; Text " cy="; Q; Number centerY; Q;
   Text " r="; Q; Number (radius * 0x1.3333333333333p-1); Q;
   Text " fill="; Q; Text "var(--card-bg)"; Q; Text " />"].

Definition totalText : Markup :=
  [Text "
    <text x="; Q; Number centerX; Q; Text " y="; Q; Number centerY; Q;
   Text " text-anchor="; Q; Text "middle"; Q; Text " dominant-baseline="; Q; Text "middle"; Q;
   Text " fill="; Q; Text "var(--text-primary)"; Q;
   Text " style="; Q; Text "font-weight: 700; font-size: 0.875rem;"; Q; Text ">
      TOTAL
    </text>
  "].

Definition svgClose : Markup := [Text "</svg>"].

(** [const total = data.reduce((acc, curr) => acc + curr.value, 0)] *)
Definition totalOf (data : list Slice) : float :=
  fold_left (fun acc curr => acc + value curr) data 0.

Section Render.
(** [Math.cos] and [Math.sin] are the platform's. *)
Variables cos sin : float -> float.

(** The body of [data.forEach]: the loop's two variables
    [cumulativeAngle] and [svgContent], before and after. *)
Definition drawSlice (total : float) (vars : float * Markup) (slice : Slice)
  : float * Markup :=
  let '(cumulativeAngle, svgContent) := vars in
  let sliceAngle := (value slice / total) * 2 * Num.PI in
  let x1 := centerX + radius * cos cumulativeAngle in
  let y1 := centerY + radius * sin cumulativeAngle in
  let x2 := centerX + radius * cos (cumulativeAngle + sliceAngle) in
  let y2 := centerY + radius * sin (cumulativeAngle + sliceAngle) in
  let largeArcFlag := if Num.gt sliceAngle Num.PI then 1 else 0 in
  let d := pathData x1 y1 largeArcFlag x2 y2 in
  (cumulativeAngle + sliceAngle, (svgContent ++ pathElement d slice)%list).

(** [renderPieChart(containerId, data)] on a document that maps the
    id of an element to its [innerHTML]. *)
Definition renderPieChart (containerId : string) (data : list Slice)
  (document : gmap string Markup) : gmap string Markup :=
  match document !! containerId with
  | None => document
  | Some _ =>
      let total := totalOf data in
      if Num.strict_eq total 0 then <[containerId := noData]> document
      else
        let '(_, svgContent) := fold_left (drawSlice total) data (0, svgOpen) in
        let svgContent := (svgContent ++ innerCircle)%list in
        let svgContent := (svgContent ++ totalText)%list in
        let svgContent := (svgContent ++ svgClose)%list in
        <[containerId := svgContent]> document
  end.

End Render.

End Charts.

(** ** renderUndo (main.js lines 413-424, app.js lines 302-313) *)

Definition undoButton : Markup :=
  [Text "
      <button onclick="; Q; Text "undoLastAction()"; Q; Text " class="; Q; Text "btn"; Q;
   Text " style="; Q;
   Text "padding: 0.25rem 0.75rem; font-size: 0.75rem; background: var(--border); display: flex; align-items: center; gap: 0.25rem;";
   Q; Text ">
        <ion-icon name="; Q; Text "arrow-undo-outline"; Q; Text "></ion-icon> Undo
      </button>
    "].

(** [undoContainer] is [document.getElementById('undo-container')];
    assigning [innerHTML] of [null] throws. *)
Definition renderUndo (state : State) (document : gmap string Markup)
  : completion (gmap string Markup) :=
  match document !! "undo-container" with
  | None => TypeError
  | Some _ =>
      if (0 <? length (history state))%nat
      then Normal (<["undo-container" := undoButton]> document)
      else Normal (<["undo-container" := []]> document)
  end.

(** ** The groups of renderMonthlySummary (main.js lines 205-211, app.js
    lines 64-70) *)

(** [{ income, expense }] *)
Record Group : Type := mkGroup {
  g_income : float;
  g_expense : float
}.

Section MonthlySummary.
(** The key of a date: the short month name and the year of
    [new Date(t.date)], separated by a space, both the platform's.  A key
    holds a space, so it is neither an array index nor the name of a
    property that objects inherit: [groups] is a plain map. *)
Variable monthKey : string -> string.

(** [acc[key][t.type] += t.amount], on the entry of the key.  With a
    type other than ['income'] and ['expense'] the sum lands in a
    property that is never read. *)
Definition addAmount (o : Transaction) (g : Group) : Group :=
  if String.eqb (tx_type o) "income" then
    {| g_income := (g_income g + tx_amount o)%float; g_expense := g_expense g |}
  else if String.eqb (tx_type o) "expense" then
    {| g_income := g_income g; g_expense := (g_expense g + tx_amount o)%float |}
  else g.

(** The callback of [transactions.reduce]. *)
Definition addToGroup (acc : gmap string Group) (t : JsTx)
  : completion (gmap string Group) :=
  match t with
  | undefined => TypeError
  | obj o =>
      let key := monthKey (tx_date o) in
      let acc :=
        match acc !! key with
        | Some _ => acc
        | None => <[key := {| g_income := 0; g_expense := 0 |}]> acc
        end in
      Normal (alter (addAmount o) key acc)
  end.

Definition groups (state : State) : completion (gmap string Group) :=
  js_reduce addToGroup ∅ (transactions state).

End MonthlySummary.

(** ** Vocabulary of the statements *)

(** [t] is a transaction object whose [id] is [i]. *)
Definition has_id (i : string) (t : JsTx) : bool :=
  match t with
  | obj o => String.eqb (tx_id o) i
  | undefined => false
  end.

(** The first element of [txs] with identifier [i], [undefined] when
    there is none. *)
Definition first_with_id (i : string) (txs : list JsTx) : JsTx :=
  default undefined (List.find (has_id i) txs).

(** The elements of [txs] other than the transactions with identifier [i]. *)
Definition without_id (i : string) (txs : list JsTx) : list JsTx :=
  List.filter (fun t => negb (has_id i t)) txs.

(** The state a deletion returns over a list of transaction objects. *)
Definition deleted (state : State) (i : string) : State :=
  {| transactions := without_id i (transactions state);
     history := slice0 50 ({| h_type := "DELETE";
                              h_data := first_with_id i (transactions state) |}
                             :: history state);
     theme := theme state;
     currency := currency state;
     filters := filters state;
     persist := persist state |}.

(** The reducer throws on [action] in [state]: a deletion over a list
    that holds [undefined]. *)
Definition reducer_throws (state : State) (action : Action) : Prop :=
  (exists i, action = DELETE_TRANSACTION i) /\ undefined ∈ transactions state.

(** The entry the reducer records when [undoLastAction] dispatches the
    inverse of the entry [e] over the transactions [txs]. *)
Definition inverse_entry (txs : list JsTx) (e : HistoryEntry) : HistoryEntry :=
  if String.eqb (h_type e) "ADD" then
    {| h_type := "DELETE";
       h_data := match h_data e with
                 | obj t => first_with_id (tx_id t) txs
                 | undefined => undefined
                 end |}
  else {| h_type := "ADD"; h_data := h_data e |}.

(** Sample data: a transaction, and the state after adding it to the
    initial state of [store.js]. *)
Definition coffee : Transaction :=
  {| tx_id := "k3x9q2m1z"; tx_description := "Coffee"; tx_amount := 3%float;
     tx_type := "expense"; tx_category := "food";
     tx_date := "2024-01-15T08:30:00.000Z" |}.

Definition coffee_added : State :=
  {| transactions := [obj coffee];
     history := [{| h_type := "ADD"; h_data := obj coffee |}];
     theme := "dark"; currency := "USD";
     filters := filters Store.initialState;
     persist := true |}.

(** Two different records that carry the same id, and a state that holds
    both, as an import without deduplication leaves it. *)
Definition rent_paid : Transaction :=
  {| tx_id := "dup"; tx_description := "Rent"; tx_amount := 900%float;
     tx_type := "expense"; tx_category := "rent";
     tx_date := "2024-02-01T09:00:00.000Z" |}.

Definition rent_refund : Transaction :=
  {| tx_id := "dup"; tx_description := "Rent refund"; tx_amount := 150%float;
     tx_type := "income"; tx_category := "rent";
     tx_date := "2024-02-20T09:00:00.000Z" |}.

Definition two_with_one_id : State :=
  {| transactions := [obj rent_paid; obj rent_refund];
     history := [];
     theme := "dark"; currency := "USD";
     filters := filters Store.initialState;
     persist := true |}.

(** A sequence of dispatches, each from an event handler of its own. *)
Definition dispatch_all (reducer : State -> Action -> completion State)
  (store : StoreObj) (actions : list Action) : StoreObj :=
  fold_left (dispatch_event reducer) actions store.

(** The loop of [renderPieChart] unrolled: the markup of the entry that
    follows the entries [before], with the templates of the code.  A step
    of the proofs, not the specification (which is [PieSpec] below). *)
Module Unrolled.
Import Charts.
Local Open Scope float_scope.

Section Spec.
Variables cos sin : float -> float.
Variable total : float.

(** The slice angle of an entry, [(value / total) * 2 * pi]. *)
Definition sliceAngle (s : Slice) : float := (value s / total) * 2 * Num.PI.

(** 1 when the slice angle exceeds pi, 0 otherwise. *)
Definition largeArcFlag (s : Slice) : float :=
  if Num.gt (sliceAngle s) Num.PI then 1 else 0.

(** The cumulative angle after the entries [before], from 0. *)
Definition cumulative (before : list Slice) : float :=
  fold_left (fun c s => c + sliceAngle s) before 0.

(** The wedge of the entry [s] that follows the entries [before]:
    from the centre to the point at the cumulative angle, an arc to
    the point one slice angle further, and back. *)
Definition wedge (before : list Slice) (s : Slice) : Markup :=
  let a0 := cumulative before in
  let a1 := a0 + sliceAngle s in
  pathElement
    (pathData (centerX + radius * cos a0) (centerY + radius * sin a0)
              (largeArcFlag s)
              (centerX + radius * cos a1) (centerY + radius * sin a1))
    s.

Definition wedges (data : list Slice) : list Markup :=
  imap (fun i s => wedge (take i data) s) data.

Definition chart (data : list Slice) : Markup :=
  (svgOpen ++ concat (wedges data) ++ innerCircle ++ totalText ++ svgClose)%list.

End Spec.
End Unrolled.

(** Reading markup back: the words of the text, cut at white space, and
    the numbers, in order; and the wedges found in them, one for every
    path of the form [M cx cy L x1 y1 A rx ry 0 flag 1 x2 y2 Z]. *)
Module SvgReader.






(** A wedge as drawn: from the centre, a line to the start point, an arc
    of the given radii and large-arc flag to the end point, closed. *)
Record Wedge : Type := mkWedge {
  w_centre : float * float;
  w_start : float * float;
  w_radii : float * float;
  w_large_arc : float;
  w_end : float * float
}.



End SvgReader.

(** The chart as the specification describes it, with nothing taken from
    the code: the total, the slice angle [(value / total) * 2 * pi], the
    large-arc flag, the cumulative angle from 0, and for each entry, in
    input order, the wedge between the points of the circle of radius 80
    around (100, 100) at the cumulative angle and one slice angle
    further. *)
Module PieSpec.
Import SvgReader.
Local Open Scope float_scope.

Definition pi : float := 0x1.921fb54442d18p+1.

Fixpoint total_from (acc : float) (data : list Slice) : float :=
  match data with
  | [] => acc
  | s :: rest => total_from (acc + value s) rest
  end.

Definition total (data : list Slice) : float := total_from 0 data.

Definition sliceAngle (total : float) (s : Slice) : float :=
  value s / total * 2 * pi.

Definition largeArcFlag (total : float) (s : Slice) : float :=
  if PrimFloat.ltb pi (sliceAngle total s) then 1 else 0.

Definition angle_before (total : float) (earlier : list Slice) : float :=
  fold_left (fun c s => c + sliceAngle total s) earlier 0.

Section Wedges.
Variables cos sin : float -> float.

Definition point (angle : float) : float * float :=
  (100 + 80 * cos angle, 100 + 80 * sin angle).

Definition wedge (total : float) (earlier : list Slice) (s : Slice) : Wedge :=
  {| w_centre := (100, 100);
     w_start := point (angle_before total earlier);
     w_radii := (80, 80);
     w_large_arc := largeArcFlag total s;
     w_end := point (angle_before total earlier + sliceAngle total s) |}.

Definition wedges (data : list Slice) : list Wedge :=
  imap (fun i s => wedge (total data) (take i data) s) data.

End Wedges.


End PieSpec.

(** Sample data for the price filter: bounds 10 and 50. *)
Definition between_10_and_50 (s c d : string) : FilterState :=
  {| search := s; category := c; dateRange := d;
     minPrice := Some 10%float; maxPrice := Some 50%float |}.

Definition priced (amount : float) : Transaction :=
  {| tx_id := tx_id coffee; tx_description := tx_description coffee;
     tx_amount := amount; tx_type := tx_type coffee;
     tx_category := tx_category coffee; tx_date := tx_date coffee |}.

(** The patch that has the keys of [p] and of [q], with the values of
    [q] where both have a key: [{ ...p, ...q }]. *)
Definition patch_then (p q : FilterPatch) : FilterPatch :=
  {| p_search := match p_search q with Some v => Some v | None => p_search p end;
     p_category := match p_category q with Some v => Some v | None => p_category p end;
     p_dateRange := match p_dateRange q with Some v => Some v | None => p_dateRange p end;
     p_minPrice := match p_minPrice q with Some v => Some v | None => p_minPrice p end;
     p_maxPrice := match p_maxPrice q with Some v => Some v | None => p_maxPrice p end |}.

(** The payloads [{ category: c }] and [{ search: s }] of the filter
    handlers. *)
Definition category_patch (c : string) : FilterPatch :=
  {| p_search := None; p_category := Some c; p_dateRange := None;
     p_minPrice := None; p_maxPrice := None |}.
Definition search_patch (s : string) : FilterPatch :=
  {| p_search := Some s; p_category := None; p_dateRange := None;
     p_minPrice := None; p_maxPrice := None |}.


(** The amount the dashboard adds up for an element of the list. *)
Definition amount_of (t : JsTx) : float :=
  match t with
  | obj o => tx_amount o
  | undefined => Num.NaN
  end.

(** [t] is a transaction object of type [ty]. *)
Definition has_type (ty : string) (t : JsTx) : bool :=
  match t with
  | obj o => String.eqb (tx_type o) ty
  | undefined => false
  end.

(** [t] is a transaction object whose date has the month key [key]. *)
Definition in_month (monthKey : string -> string) (key : string) (t : JsTx) : bool :=
  match t with
  | obj o => String.eqb (monthKey (tx_date o)) key
  | undefined => false
  end.

(** The sum from zero, in list order, of the amounts of the transactions
    of type [ty] whose date has the month key [key]. *)
Definition month_sum (monthKey : string -> string) (ty key : string)
  (txs : list JsTx) : float :=
  fold_left (fun acc t => (acc + amount_of t)%float)
    (List.filter (has_type ty) (List.filter (in_month monthKey key) txs)) Num.zero.

(** * Properties *)

(** ** Array methods *)

Section ArrayFacts.
Variable cb : JsTx -> completion bool.
Variable g : JsTx -> bool.
Hypothesis cb_obj : forall o, cb (obj o) = Normal (g (obj o)).
Hypothesis cb_undefined : cb undefined = TypeError.

Lemma js_filter_objects (l : list JsTx) :
  undefined ∉ l -> js_filter cb l = Normal (List.filter g l).
Proof using cb_obj.
  induction l as [|x l IH]; intros Hl; [reflexivity|].
  apply not_elem_of_cons in Hl as [Hx Hl].
  destruct x as [|o]; [congruence|].
  cbn. rewrite cb_obj. cbn. rewrite (IH Hl). cbn.
  destruct (g (obj o)); reflexivity.
Qed.

Lemma js_filter_undefined (l : list JsTx) :
  undefined ∈ l -> js_filter cb l = TypeError.
Proof using cb_undefined.
  induction l as [|x l IH]; intros Hl; [inversion Hl|].
  cbn. destruct (cb x) as [b|] eqn:Hx; [|reflexivity].
  apply elem_of_cons in Hl as [<-|Hl]; [congruence|].
  cbn. rewrite (IH Hl). reflexivity.
Qed.

Lemma js_find_objects (l : list JsTx) :
  undefined ∉ l ->
  js_find undefined cb l = Normal (default undefined (List.find g l)).
Proof using cb_obj.
  induction l as [|x l IH]; intros Hl; [reflexivity|].
  apply not_elem_of_cons in Hl as [Hx Hl].
  destruct x as [|o]; [congruence|].
  cbn. rewrite cb_obj. cbn. destruct (g (obj o)); [reflexivity|]. exact (IH Hl).
Qed.

End ArrayFacts.

(** ** The reducers *)

Lemma Store_delete_objects (s : State) (i : string) :
  undefined ∉ transactions s ->
  Store.expenseReducer s (DELETE_TRANSACTION i) = Normal (deleted s i).
Proof.
  intros Hl. unfold Store.expenseReducer.
  rewrite (js_find_objects _ (has_id i)) by (reflexivity || assumption). cbn.
  rewrite (js_filter_objects _ (fun t => negb (has_id i t))) by (reflexivity || assumption).
  reflexivity.
Qed.

Lemma Store_delete_undefined (s : State) (i : string) :
  undefined ∈ transactions s ->
  Store.expenseReducer s (DELETE_TRANSACTION i) = TypeError.
Proof.
  intros Hl. unfold Store.expenseReducer.
  rewrite (js_filter_undefined (fun t => i0 ← get_prop tx_id t; Normal (negb (String.eqb i0 i))))
    by (reflexivity || assumption).
  destruct (js_find _ _ _); reflexivity.
Qed.

(** The reducer of [main.js] is the reducer of [store.js] on every action
    other than [SET_CURRENCY]. *)
Lemma Main_reducer_agrees (s : State) (a : Action) :
  (forall code, a <> SET_CURRENCY code) ->
  Main.expenseReducer s a = Store.expenseReducer s a.
Proof. destruct a; intros H; try reflexivity. now destruct (H payload). Qed.

Lemma undefined_dec (l : list JsTx) : {undefined ∈ l} + {undefined ∉ l}.
Proof.
  induction l as [|x l [IH|IH]].
  - right. apply not_elem_of_nil.
  - left. apply elem_of_cons. now right.
  - destruct x as [|o].
    + left. apply elem_of_cons. now left.
    + right. intros H. apply elem_of_cons in H as [H|H]; [discriminate|contradiction].
Qed.

(** When each reducer throws, and that it returns otherwise. *)
Lemma Store_reducer_cases (s : State) (a : Action) :
  (exists s', Store.expenseReducer s a = Normal s') /\ ~ reducer_throws s a
  \/ Store.expenseReducer s a = TypeError /\ reducer_throws s a.
Proof.
  destruct a as [p|i|p|p|p|ty];
    try (left; split; [eexists; reflexivity | intros [[i Hi] _]; discriminate]).
  destruct (undefined_dec (transactions s)) as [H|H].
  - right. split; [now apply Store_delete_undefined | split; [now exists i | exact H]].
  - left. split; [eexists; now apply Store_delete_objects | intros [_ H']; contradiction].
Qed.

Lemma Main_reducer_cases (s : State) (a : Action) :
  (exists s', Main.expenseReducer s a = Normal s') /\ ~ reducer_throws s a
  \/ Main.expenseReducer s a = TypeError /\ reducer_throws s a.
Proof.
  destruct a as [p|i|p|p|p|ty];
    try (left; split; [eexists; reflexivity | intros [[i Hi] _]; discriminate]).
  rewrite Main_reducer_agrees by discriminate. apply Store_reducer_cases.
Qed.

Lemma Store_history_bound (s s' : State) (a : Action) :
  Store.expenseReducer s a = Normal s' ->
  length (history s) <= 50 -> length (history s') <= 50.
Proof.
  intros Hr Hs. destruct a as [p|i|p|p|p|ty].
  2: { destruct (undefined_dec (transactions s)) as [H|H].
       - rewrite Store_delete_undefined in Hr by assumption. discriminate.
       - rewrite Store_delete_objects in Hr by assumption.
         injection Hr as <-. cbn. unfold slice0. rewrite length_take. lia. }
  all: cbn in Hr; injection Hr as <-; cbn; unfold slice0; try rewrite length_take; lia.
Qed.

Lemma Main_history_bound (s s' : State) (a : Action) :
  Main.expenseReducer s a = Normal s' ->
  length (history s) <= 50 -> length (history s') <= 50.
Proof.
  destruct a; try (rewrite Main_reducer_agrees by discriminate; apply Store_history_bound).
  cbn. intros [= <-]. trivial.
Qed.

Lemma Store_persist_kept (s s' : State) (a : Action) :
  Store.expenseReducer s a = Normal s' -> persist s' = persist s.
Proof.
  intros Hr. destruct a as [p|i|p|p|p|ty].
  2: { destruct (undefined_dec (transactions s)) as [H|H].
       - rewrite Store_delete_undefined in Hr by assumption. discriminate.
       - rewrite Store_delete_objects in Hr by assumption. now injection Hr as <-. }
  all: cbn in Hr; now injection Hr as <-.
Qed.

Lemma Main_persist_kept (s s' : State) (a : Action) :
  Main.expenseReducer s a = Normal s' -> persist s' = persist s.
Proof.
  destruct a; try (rewrite Main_reducer_agrees by discriminate; apply Store_persist_kept).
  cbn. now intros [= <-].
Qed.

(** An invariant of the state that every returning call of the reducer
    keeps holds after any sequence of dispatches. *)
Lemma dispatch_all_invariant (R : State -> Action -> completion State)
  (P : State -> Prop) :
  (forall s a s', R s a = Normal s' -> P s -> P s') ->
  forall actions store, P (st_state store) -> P (st_state (dispatch_all R store actions)).
Proof.
  intros HR actions. induction actions as [|a actions IH]; intros store HP; [exact HP|].
  cbn. apply IH. unfold dispatch_event, dispatch.
  destruct (R (st_state store) a) as [s'|] eqn:Hr; cbn; [|exact HP].
  exact (HR _ _ _ Hr HP).
Qed.

(** C1 (the code departs from it).  A [DELETE_TRANSACTION] whose id
    matches no transaction leaves the transaction list as it is, but the
    reducer records it all the same: over an empty list, [find] returns
    [undefined] and the history receives the entry
    [{ type: 'DELETE', data: undefined }]; from the initial state the
    history goes from empty to that one entry.  Both reducers do so. *)
Theorem C1_delete_missing_is_recorded :
  (forall hist th cu fs pe i,
     let s := {| transactions := []; history := hist; theme := th;
                 currency := cu; filters := fs; persist := pe |} in
     let s' := {| transactions := [];
                  history := slice0 50 ({| h_type := "DELETE"; h_data := undefined |} :: hist);
                  theme := th; currency := cu; filters := fs; persist := pe |} in
     Store.expenseReducer s (DELETE_TRANSACTION i) = Normal s'
     /\ Main.expenseReducer s (DELETE_TRANSACTION i) = Normal s')
  /\ (exists s', Store.expenseReducer Store.initialState (DELETE_TRANSACTION "missing") = Normal s'
                 /\ transactions s' = transactions Store.initialState
                 /\ history Store.initialState = []
                 /\ history s' = [{| h_type := "DELETE"; h_data := undefined |}]).
Proof.
  split.
  - intros. split; reflexivity.
  - eexists. repeat split; reflexivity.
Qed.

(** C4 (the code departs from it).  On [SET_CURRENCY] the reducer of
    [store.js] replaces the currency and nothing else, but the reducer of
    [main.js] has no such case and returns the state it was given: there
    the currency stays what it was, ["USD"] from the initial state. *)
Theorem C4_main_ignores_set_currency :
  (forall s code,
     Store.expenseReducer s (SET_CURRENCY code)
     = Normal {| transactions := transactions s; history := history s;
                 theme := theme s; currency := code;
                 filters := filters s; persist := persist s |})
  /\ (forall s code, Main.expenseReducer s (SET_CURRENCY code) = Normal s)
  /\ (exists s', Main.expenseReducer Main.initialState (SET_CURRENCY "EUR") = Normal s'
                 /\ currency s' = "USD").
Proof.
  split; [reflexivity|]. split; [reflexivity|].
  eexists. split; reflexivity.
Qed.

(** C5.  A reducer called on a state whose history has at most 50
    entries either throws (a deletion over a list holding [undefined],
    which produces no state) or returns a state whose history has at most
    50 entries; hence after any sequence of dispatches from the initial
    state the history has at most 50 entries.  For both reducers. *)
Theorem C5_history_at_most_50 :
  (forall s a, length (history s) <= 50 ->
     match Store.expenseReducer s a with
     | Normal s' => length (history s') <= 50
     | TypeError => reducer_throws s a
     end)
  /\ (forall s a, length (history s) <= 50 ->
     match Main.expenseReducer s a with
     | Normal s' => length (history s') <= 50
     | TypeError => reducer_throws s a
     end)
  /\ (forall saved actions,
        length (history (getState
          (dispatch_all Store.expenseReducer
             (createStore Store.initialState saved) actions))) <= 50)
  /\ (forall saved actions,
        length (history (getState
          (dispatch_all Main.expenseReducer
             (createStore Main.initialState saved) actions))) <= 50).
Proof.
  repeat split.
  - intros s a Hs. destruct (Store_reducer_cases s a) as [[[s' Hr] _]|[Hr Ht]];
      rewrite Hr; [exact (Store_history_bound _ _ _ Hr Hs) | exact Ht].
  - intros s a Hs. destruct (Main_reducer_cases s a) as [[[s' Hr] _]|[Hr Ht]];
      rewrite Hr; [exact (Main_history_bound _ _ _ Hr Hs) | exact Ht].
  - intros saved actions. unfold getState.
    apply (dispatch_all_invariant _ (fun s => length (history s) <= 50)).
    + intros s a s'. apply Store_history_bound.
    + cbn. lia.
  - intros saved actions. unfold getState.
    apply (dispatch_all_invariant _ (fun s => length (history s) <= 50)).
    + intros s a s'. apply Main_history_bound.
    + cbn. lia.
Qed.

Lemma C5_history_at_most_50_witness :
  length (history Store.initialState) <= 50
  /\ match Store.expenseReducer Store.initialState (ADD_TRANSACTION undefined) with
     | Normal s' => length (history s') <= 50
     | TypeError => reducer_throws Store.initialState (ADD_TRANSACTION undefined)
     end.
Proof.
  assert (H : length (history Store.initialState) <= 50) by (cbn; lia).
  split; [exact H|].
  exact (proj1 C5_history_at_most_50 Store.initialState (ADD_TRANSACTION undefined) H).
Defined.

(** C9.  Whatever the action, recognised or not, a reducer that returns
    returns a state with the persistence flag of the state it was given;
    it returns unless it throws on a deletion over a list holding
    [undefined].  For both reducers. *)
Theorem C9_persist_flag_kept :
  forall s a,
    match Store.expenseReducer s a with
    | Normal s' => persist s' = persist s
    | TypeError => reducer_throws s a
    end
    /\ match Main.expenseReducer s a with
       | Normal s' => persist s' = persist s
       | TypeError => reducer_throws s a
       end.
Proof.
  intros s a. split.
  - destruct (Store_reducer_cases s a) as [[[s' Hr] _]|[Hr Ht]];
      rewrite Hr; [exact (Store_persist_kept _ _ _ Hr) | exact Ht].
  - destruct (Main_reducer_cases s a) as [[[s' Hr] _]|[Hr Ht]];
      rewrite Hr; [exact (Main_persist_kept _ _ _ Hr) | exact Ht].
Qed.

(** ** The listener list *)

Lemma indexOf_absent (x : Listener) (l : list Listener) :
  x ∉ l -> indexOf x l = (-1)%Z.
Proof.
  induction l as [|y l IH]; intros H; [reflexivity|].
  apply not_elem_of_cons in H as [Hxy Hl]. cbn.
  destruct (Nat.eqb_spec y x) as [->|_]; [contradiction|].
  now rewrite (IH Hl).
Qed.

Lemma indexOf_first (x : Listener) (a b : list Listener) :
  x ∉ a -> indexOf x (a ++ x :: b) = Z.of_nat (length a).
Proof.
  induction a as [|y a IH]; intros H; cbn.
  - now rewrite Nat.eqb_refl.
  - apply not_elem_of_cons in H as [Hxy Ha].
    destruct (Nat.eqb_spec y x) as [->|_]; [contradiction|].
    rewrite (IH Ha). destruct (Z.ltb_spec (Z.of_nat (length a)) 0); lia.
Qed.

Lemma splice_at {A : Type} (a b : list A) (x : A) :
  splice (Z.of_nat (length a)) 1 (a ++ x :: b) = a ++ b.
Proof.
  unfold splice. rewrite length_app. cbn [length].
  destruct (Z.ltb_spec (Z.of_nat (length a)) 0) as [H|_]; [lia|].
  replace (Z.min (Z.of_nat (length a)) (Z.of_nat (length a + S (length b))))
    with (Z.of_nat (length a)) by lia.
  replace (Z.of_nat (length a) + Z.min (Z.max 1 0) (Z.of_nat (length a + S (length b)) - Z.of_nat (length a)))%Z
    with (Z.of_nat (S (length a))) by lia.
  rewrite !Nat2Z.id.
  rewrite take_app_length.
  replace (S (length a)) with (length a + 1) by lia.
  rewrite <- drop_drop, drop_app_length. reflexivity.
Qed.

Lemma splice_last {A : Type} (a : list A) (x : A) :
  splice (-1) 1 (a ++ [x]) = a.
Proof.
  unfold splice. rewrite length_app. cbn [length].
  change (-1 <? 0)%Z with true. cbn match.
  replace (Z.max (Z.of_nat (length a + 1) + -1) 0) with (Z.of_nat (length a)) by lia.
  replace (Z.of_nat (length a) + Z.min (Z.max 1 0) (Z.of_nat (length a + 1) - Z.of_nat (length a)))%Z
    with (Z.of_nat (length a + 1)) by lia.
  rewrite !Nat2Z.id.
  rewrite take_app_length.
  rewrite drop_ge by (rewrite length_app; cbn; lia).
  apply app_nil_r.
Qed.

Lemma splice_empty {A : Type} (start : Z) : splice start 1 (@nil A) = [].
Proof. unfold splice. now rewrite take_nil, drop_nil. Qed.

(** C2 (the code departs from it).  With two listeners subscribed, the
    first call of the first listener's unsubscribe function removes that
    listener; a second call finds no index ([indexOf] is [-1]) and
    [splice(-1, 1)] removes the last element, the other listener. *)
Theorem C2_second_unsubscribe_removes_another :
  forall (s : State) (saved : option State) (n : Listener),
    let store := subscribe (subscribe (createStore s saved) n) (S n) in
    st_listeners store = [n; S n]
    /\ st_listeners (unsubscribe n store) = [S n]
    /\ st_listeners (unsubscribe n (unsubscribe n store)) = [].
Proof.
  intros s saved n store. split; [reflexivity|].
  assert (H1 : st_listeners (unsubscribe n store) = [S n]).
  { unfold unsubscribe, store. cbn [st_listeners subscribe createStore app].
    change [n; S n] with ([] ++ n :: [S n]).
    rewrite (indexOf_first n [] [S n]) by apply not_elem_of_nil.
    apply (splice_at [] [S n] n). }
  split; [exact H1|].
  unfold unsubscribe at 1. cbn [st_listeners]. rewrite H1.
  rewrite indexOf_absent.
  - apply (splice_last [] (S n)).
  - intros H. apply list_elem_of_singleton in H. lia.
Qed.

(** ** Undo *)

Lemma undo_top_delete (R : State -> Action -> completion State)
  (store : StoreObj) (e : HistoryEntry) (rest : list HistoryEntry) :
  history (getState store) = e :: rest -> h_type e = "DELETE" ->
  undoLastAction R store = dispatch R store (ADD_TRANSACTION (h_data e)).
Proof. intros Hh He. unfold undoLastAction. rewrite Hh, He. reflexivity. Qed.

Lemma undo_top_add (R : State -> Action -> completion State)
  (store : StoreObj) (e : HistoryEntry) (rest : list HistoryEntry) (t : Transaction) :
  history (getState store) = e :: rest -> h_type e = "ADD" -> h_data e = obj t ->
  undoLastAction R store = dispatch R store (DELETE_TRANSACTION (tx_id t)).
Proof. intros Hh He Hd. unfold undoLastAction. rewrite Hh, He, Hd. reflexivity. Qed.

Lemma slice0_cons {A : Type} (x : A) (l : list A) :
  slice0 50 (x :: l) = x :: take 49 l.
Proof. reflexivity. Qed.

(** What undo does to the history, for a reducer that handles additions
    and deletions as the reducer of [store.js] does. *)
Lemma undo_history (R : State -> Action -> completion State)
  (store : StoreObj) (e : HistoryEntry) (rest : list HistoryEntry) :
  (forall s p, R s (ADD_TRANSACTION p) = Store.expenseReducer s (ADD_TRANSACTION p)) ->
  (forall s i, R s (DELETE_TRANSACTION i) = Store.expenseReducer s (DELETE_TRANSACTION i)) ->
  history (getState store) = e :: rest ->
  (h_type e = "ADD" /\ h_data e <> undefined
   /\ undefined ∉ transactions (getState store))
  \/ h_type e = "DELETE" ->
  exists store',
    undoLastAction R store = Normal store'
    /\ history (getState store')
       = slice0 50 (inverse_entry (transactions (getState store)) e :: e :: rest).
Proof.
  intros Hadd Hdel Hh [(He & Hd & Hu)|He].
  - destruct (h_data e) as [|t] eqn:Hdata; [congruence|].
    rewrite (undo_top_add R store e rest t Hh He Hdata).
    unfold dispatch. rewrite Hdel, (Store_delete_objects _ _ Hu).
    eexists. split; [reflexivity|]. unfold getState in *. cbn -[slice0]. rewrite Hh.
    unfold inverse_entry. rewrite He, Hdata. reflexivity.
  - rewrite (undo_top_delete R store e rest Hh He).
    unfold dispatch. rewrite Hadd.
    eexists. split; [reflexivity|]. unfold getState in *. cbn -[slice0]. rewrite Hh.
    unfold inverse_entry. rewrite He. reflexivity.
Qed.

(** C3 (counterexample).  In the state reached by adding one
    transaction to the initial state the history has one entry; after
    undo it has two, not none. *)
Lemma C3_counterexample :
  let store := createStore coffee_added None in
  history (getState store) <> []
  /\ exists store',
       undoLastAction Store.expenseReducer store = Normal store'
       /\ length (history (getState store)) = 1
       /\ length (history (getState store')) = 2
       /\ length (history (getState store'))
          <> length (history (getState store)) - 1.
Proof.
  cbn zeta. split; [discriminate|].
  eexists. split; [reflexivity|]. cbn. repeat split; lia.
Qed.

(** C3 (amended).  For every store whose history is not empty and whose
    top entry is a DELETE entry, or an ADD entry holding a transaction
    object while the transaction list holds no [undefined], undo returns
    and does not remove the entry: the reducer records the inverse action
    on top of it, so the history afterwards is the first 50 entries of
    the inverse entry followed by the old history, [min (n + 1) 50]
    entries for [n] before.  For both entry scripts. *)
Theorem C3_undo_records_the_inverse :
  forall (store : StoreObj) (e : HistoryEntry) (rest : list HistoryEntry),
    history (getState store) = e :: rest ->
    (h_type e = "ADD" /\ h_data e <> undefined
     /\ undefined ∉ transactions (getState store))
    \/ h_type e = "DELETE" ->
    (exists store',
       undoLastAction Store.expenseReducer store = Normal store'
       /\ history (getState store')
          = slice0 50 (inverse_entry (transactions (getState store)) e :: e :: rest)
       /\ length (history (getState store'))
          = min (length (history (getState store)) + 1) 50)
    /\ (exists store',
       undoLastAction Main.expenseReducer store = Normal store'
       /\ history (getState store')
          = slice0 50 (inverse_entry (transactions (getState store)) e :: e :: rest)
       /\ length (history (getState store'))
          = min (length (history (getState store)) + 1) 50).
Proof.
  intros store e rest Hh Hc. split.
  - destruct (undo_history Store.expenseReducer store e rest) as (store' & Hu & Hh');
      try assumption; try reflexivity.
    exists store'. repeat split; [exact Hu | exact Hh' |].
    rewrite Hh', Hh. unfold slice0. rewrite length_take. cbn [length]. lia.
  - destruct (undo_history Main.expenseReducer store e rest) as (store' & Hu & Hh');
      try assumption; try reflexivity.
    exists store'. repeat split; [exact Hu | exact Hh' |].
    rewrite Hh', Hh. unfold slice0. rewrite length_take. cbn [length]. lia.
Qed.

Lemma C3_undo_records_the_inverse_witness :
  exists store',
    undoLastAction Store.expenseReducer (createStore coffee_added None) = Normal store'
    /\ length (history (getState store')) = 2.
Proof.
  destruct (C3_undo_records_the_inverse (createStore coffee_added None)
              {| h_type := "ADD"; h_data := obj coffee |} [])
    as [(store' & Hu & _ & Hlen) _].
  - reflexivity.
  - left. split; [reflexivity|]. split; [discriminate|].
    cbn. intros H. apply list_elem_of_singleton in H. discriminate.
  - exists store'. split; [exact Hu | exact Hlen].
Defined.

(** ** Identifiers *)

Lemma has_id_true (i : string) (x : JsTx) :
  has_id i x = true <-> exists t, x = obj t /\ tx_id t = i.
Proof.
  destruct x as [|t]; cbn.
  - split; [discriminate | intros (t & H & _); discriminate].
  - rewrite String.eqb_eq. split.
    + intros H. now exists t.
    + now intros (t' & [= <-] & H).
Qed.

Lemma first_with_id_found (i : string) (l : list JsTx) (t : Transaction) :
  obj t ∈ l -> tx_id t = i ->
  exists t0, first_with_id i l = obj t0 /\ obj t0 ∈ l /\ tx_id t0 = i.
Proof.
  intros Hin Hid. unfold first_with_id.
  destruct (List.find (has_id i) l) as [x|] eqn:E.
  - apply List.find_some in E as [Hx Hi].
    apply has_id_true in Hi as (t0 & -> & Ht0).
    exists t0. cbn. split; [reflexivity|]. split; [now apply list_elem_of_In | exact Ht0].
  - apply list_elem_of_In in Hin.
    pose proof (List.find_none _ _ E _ Hin) as H. cbn in H.
    rewrite <- Hid, String.eqb_refl in H. discriminate.
Qed.

Lemma first_with_id_missing (i : string) (l : list JsTx) :
  (forall t, obj t ∈ l -> tx_id t <> i) -> first_with_id i l = undefined.
Proof.
  intros H. unfold first_with_id.
  destruct (List.find (has_id i) l) as [x|] eqn:E; [|reflexivity].
  apply List.find_some in E as [Hx Hi].
  apply has_id_true in Hi as (t0 & -> & Ht0).
  apply list_elem_of_In in Hx. now destruct (H t0 Hx).
Qed.

Lemma elem_of_without_id (i : string) (l : list JsTx) (t : Transaction) :
  obj t ∈ without_id i l <-> obj t ∈ l /\ tx_id t <> i.
Proof.
  unfold without_id. rewrite !list_elem_of_In, List.filter_In. cbn.
  rewrite negb_true_iff, String.eqb_neq. reflexivity.
Qed.

Lemma without_id_missing (i : string) (l : list JsTx) :
  undefined ∉ l -> (forall t, obj t ∈ l -> tx_id t <> i) -> without_id i l = l.
Proof.
  intros Hu H. unfold without_id.
  induction l as [|x l IH]; [reflexivity|].
  apply not_elem_of_cons in Hu as [Hx Hu]. cbn.
  destruct x as [|t]; [congruence|]. cbn.
  destruct (String.eqb_spec (tx_id t) i) as [E|_].
  - destruct (H t); [apply elem_of_cons; now left | exact E].
  - cbn. f_equal. apply IH; [exact Hu|].
    intros t' Ht'. apply H. apply elem_of_cons. now right.
Qed.

(** Deleting by id and undoing, for a reducer that handles additions and
    deletions as the reducer of [store.js] does. *)
Lemma first_with_id_split (i : string) (l : list JsTx) (t : Transaction) :
  obj t ∈ l -> tx_id t = i -> undefined ∉ l ->
  exists before t0 after,
    l = before ++ obj t0 :: after
    /\ (forall t', obj t' ∈ before -> tx_id t' <> i)
    /\ tx_id t0 = i
    /\ first_with_id i l = obj t0.
Proof.
  induction l as [|x l IH]; intros Hin Hid Hu; [now apply not_elem_of_nil in Hin|].
  apply not_elem_of_cons in Hu as [Hx Hu].
  destruct x as [|o]; [congruence|].
  destruct (String.eqb_spec (tx_id o) i) as [Ho|Ho].
  - exists [], o, l. split; [reflexivity|].
    split; [intros t' H; now apply not_elem_of_nil in H|].
    split; [exact Ho|]. unfold first_with_id. cbn.
    apply String.eqb_eq in Ho. now rewrite Ho.
  - apply elem_of_cons in Hin as [[= ->]|Hin]; [contradiction|].
    destruct (IH Hin Hid Hu) as (before & t0 & after & Hl & Hb & H0 & Hf).
    exists (obj o :: before), t0, after. split; [cbn; now rewrite Hl|].
    split.
    + intros t' H. apply elem_of_cons in H as [[= ->]|H]; [exact Ho | now apply Hb].
    + split; [exact H0|]. unfold first_with_id in *. cbn.
      apply String.eqb_neq in Ho. now rewrite Ho.
Qed.

(** Deleting by id and undoing, for a reducer that handles additions and
    deletions as the reducer of [store.js] does. *)
Lemma delete_then_undo (R : State -> Action -> completion State)
  (store : StoreObj) (i : string) (t : Transaction) :
  (forall s p, R s (ADD_TRANSACTION p) = Store.expenseReducer s (ADD_TRANSACTION p)) ->
  (forall s j, R s (DELETE_TRANSACTION j) = Store.expenseReducer s (DELETE_TRANSACTION j)) ->
  obj t ∈ transactions (getState store) -> tx_id t = i ->
  undefined ∉ transactions (getState store) ->
  exists store1 store2 t0 before after,
    transactions (getState store) = before ++ obj t0 :: after
    /\ (forall t', obj t' ∈ before -> tx_id t' <> i)
    /\ tx_id t0 = i
    /\ deleteTransaction R store i = Normal store1
    /\ transactions (getState store1) = without_id i (transactions (getState store))
    /\ head (history (getState store1))
       = Some {| h_type := "DELETE"; h_data := obj t0 |}
    /\ undoLastAction R store1 = Normal store2
    /\ transactions (getState store2)
       = obj t0 :: without_id i (transactions (getState store)).
Proof.
  intros Hadd Hdel Hin Hid Hu.
  destruct (first_with_id_split i _ t Hin Hid Hu) as (before & t0 & after & Hl & Hb & Hid0 & Hf).
  unfold deleteTransaction, dispatch, getState in *.
  rewrite Hdel, (Store_delete_objects _ _ Hu).
  eexists. eexists. exists t0, before, after.
  split; [exact Hl|]. split; [exact Hb|]. split; [exact Hid0|].
  split; [reflexivity|].
  split; [reflexivity|].
  split; [cbn; now rewrite Hf|].
  split.
  - unfold undoLastAction, getState. cbn -[slice0 first_with_id without_id].
    rewrite slice0_cons, Hf. cbn -[slice0 without_id]. unfold dispatch.
    rewrite Hadd. reflexivity.
  - reflexivity.
Qed.

(** C6 (counterexample).  In a state whose list holds two records with
    the id ["dup"], the second is a transaction with that id; deleting
    ["dup"] and undoing leaves a list made of the first record alone,
    which does not contain the second again. *)
Lemma C6_counterexample :
  let store := createStore two_with_one_id None in
  obj rent_refund ∈ transactions (getState store)
  /\ tx_id rent_refund = "dup"
  /\ exists store1 store2,
       deleteTransaction Store.expenseReducer store "dup" = Normal store1
       /\ undoLastAction Store.expenseReducer store1 = Normal store2
       /\ transactions (getState store2) = [obj rent_paid]
       /\ (obj rent_refund ∉ transactions (getState store2)).
Proof.
  cbn zeta. split; [cbn; apply elem_of_cons; right; apply elem_of_cons; now left|].
  split; [reflexivity|].
  eexists. eexists. split; [reflexivity|]. split; [reflexivity|].
  split; [reflexivity|].
  cbn. intros H. apply list_elem_of_singleton in H. discriminate.
Qed.

(** C6 (amended).  In a store whose list holds a transaction with
    identifier [i], the deletion of [i] throws when the list holds
    [undefined]; otherwise it returns, removes every record with that
    identifier and puts the first of them in the top history entry, and
    the undo that follows returns and puts that first record back, at
    the head of the list.  After the round trip the list holds exactly
    that record and the records with other identifiers: a record that
    shared the identifier with an earlier one is not restored.  For
    both entry scripts. *)
Theorem C6_delete_then_undo_restores_the_first :
  forall (store : StoreObj) (i : string) (t : Transaction) R,
    (R = Store.expenseReducer) \/ (R = Main.expenseReducer) ->
    obj t ∈ transactions (getState store) -> tx_id t = i ->
    (undefined ∈ transactions (getState store)
     /\ deleteTransaction R store i = TypeError)
    \/ (exists store1 store2 t0 before after,
          transactions (getState store) = before ++ obj t0 :: after
          /\ (forall t', obj t' ∈ before -> tx_id t' <> i)
          /\ tx_id t0 = i
          /\ deleteTransaction R store i = Normal store1
          /\ transactions (getState store1)
             = without_id i (transactions (getState store))
          /\ (forall t', obj t' ∈ transactions (getState store1) -> tx_id t' <> i)
          /\ head (history (getState store1))
             = Some {| h_type := "DELETE"; h_data := obj t0 |}
          /\ undoLastAction R store1 = Normal store2
          /\ transactions (getState store2)
             = obj t0 :: without_id i (transactions (getState store))
          /\ (forall t', obj t' ∈ transactions (getState store2)
                         <-> t' = t0
                             \/ (obj t' ∈ transactions (getState store) /\ tx_id t' <> i))
          /\ (obj t ∈ transactions (getState store2) <-> t = t0)).
Proof.
  intros store i t R HR Hin Hid.
  assert (Hdel : forall s j, R s (DELETE_TRANSACTION j)
                             = Store.expenseReducer s (DELETE_TRANSACTION j))
    by (destruct HR as [-> | ->]; reflexivity).
  assert (Hadd : forall s p, R s (ADD_TRANSACTION p)
                             = Store.expenseReducer s (ADD_TRANSACTION p))
    by (destruct HR as [-> | ->]; reflexivity).
  destruct (undefined_dec (transactions (getState store))) as [Hu|Hu].
  - left. split; [exact Hu|]. unfold deleteTransaction, dispatch.
    rewrite Hdel, Store_delete_undefined; [reflexivity | exact Hu].
  - right.
    destruct (delete_then_undo R store i t Hadd Hdel Hin Hid Hu)
      as (s1 & s2 & t0 & before & after & Hl & Hb & H0 & H1 & H2 & H3 & H4 & H5).
    exists s1, s2, t0, before, after.
    split; [exact Hl|]. split; [exact Hb|]. split; [exact H0|]. split; [exact H1|].
    split; [exact H2|].
    split; [intros t' H; rewrite H2 in H; now apply elem_of_without_id in H|].
    split; [exact H3|]. split; [exact H4|]. split; [exact H5|].
    split.
    + intros t'. rewrite H5, elem_of_cons, elem_of_without_id.
      split; (intros [H|H]; [left; congruence | now right]).
    + rewrite H5, elem_of_cons, elem_of_without_id.
      split; [intros [[= ->]|[_ H]]; [reflexivity | contradiction] | intros ->; now left].
Qed.

Lemma C6_delete_then_undo_restores_the_first_witness :
  exists store1 store2,
    deleteTransaction Store.expenseReducer (createStore two_with_one_id None) "dup"
    = Normal store1
    /\ undoLastAction Store.expenseReducer store1 = Normal store2
    /\ (obj rent_paid ∈ transactions (getState store2)).
Proof.
  destruct (C6_delete_then_undo_restores_the_first (createStore two_with_one_id None)
              "dup" rent_paid Store.expenseReducer (or_introl eq_refl))
    as [[Hu _]|(s1 & s2 & t0 & before & after & _ & _ & _ & H1 & _ & _ & _ & H4 & H5 & _ & Ht)].
  - cbn. apply elem_of_cons. now left.
  - reflexivity.
  - exfalso. cbn in Hu. apply elem_of_cons in Hu as [Hu|Hu]; [discriminate|].
    apply list_elem_of_singleton in Hu. discriminate.
  - exists s1, s2. split; [exact H1|]. split; [exact H4|].
    apply Ht. cbn in H1. injection H1 as <-. cbn in H4. injection H4 as <-.
    cbn in H5. now injection H5 as ->.
Defined.

(** C10.  Adding a transaction whose identifier a record of the list
    already carries is accepted: the new list holds the payload at index
    0 and the older record at a later index, both with that identifier;
    one deletion by that identifier then removes both, leaving no record
    with it.  For lists of transaction objects and both reducers. *)
Theorem C10_duplicate_id_added_and_deleted_together :
  forall (s : State) (t p : Transaction),
    obj t ∈ transactions s -> tx_id p = tx_id t ->
    undefined ∉ transactions s ->
    forall R, (R = Store.expenseReducer) \/ (R = Main.expenseReducer) ->
    exists s1 s2 j,
      R s (ADD_TRANSACTION (obj p)) = Normal s1
      /\ transactions s1 !! 0 = Some (obj p)
      /\ transactions s1 !! S j = Some (obj t)
      /\ R s1 (DELETE_TRANSACTION (tx_id t)) = Normal s2
      /\ (obj p ∉ transactions s2) /\ (obj t ∉ transactions s2)
      /\ (forall t', obj t' ∈ transactions s2 -> tx_id t' <> tx_id t)
      /\ transactions s2 = without_id (tx_id t) (transactions s).
Proof.
  intros s t p Hin Hid Hu R HR.
  assert (Hadd : R s (ADD_TRANSACTION (obj p))
                 = Store.expenseReducer s (ADD_TRANSACTION (obj p)))
    by (destruct HR as [-> | ->]; reflexivity).
  assert (Hdel : forall s', R s' (DELETE_TRANSACTION (tx_id t))
                 = Store.expenseReducer s' (DELETE_TRANSACTION (tx_id t)))
    by (destruct HR as [-> | ->]; reflexivity).
  apply list_elem_of_lookup in Hin as [j Hj].
  eexists. eexists. exists j.
  split; [rewrite Hadd; reflexivity|].
  split; [reflexivity|]. split; [exact Hj|].
  rewrite Hdel, Store_delete_objects.
  2: { cbn. intros H. apply elem_of_cons in H as [H|H]; [discriminate | contradiction]. }
  split; [reflexivity|].
  assert (Hs2 : transactions (deleted
             {| transactions := obj p :: transactions s;
                history := slice0 50 ({| h_type := "ADD"; h_data := obj p |} :: history s);
                theme := theme s; currency := currency s;
                filters := filters s; persist := persist s |} (tx_id t))
          = without_id (tx_id t) (transactions s)).
  { cbn. rewrite Hid, String.eqb_refl. reflexivity. }
  rewrite Hs2.
  repeat split.
  - intros H. apply elem_of_without_id in H as [_ H]. contradiction.
  - intros H. apply elem_of_without_id in H as [_ H]. contradiction.
  - intros t' H. now apply elem_of_without_id in H as [_ H].
Qed.

Lemma C10_duplicate_id_added_and_deleted_together_witness :
  exists s1 s2,
    Store.expenseReducer coffee_added (ADD_TRANSACTION (obj coffee)) = Normal s1
    /\ Store.expenseReducer s1 (DELETE_TRANSACTION "k3x9q2m1z") = Normal s2
    /\ transactions s2 = [].
Proof.
  destruct (C10_duplicate_id_added_and_deleted_together coffee_added coffee coffee)
    with (R := Store.expenseReducer)
    as (s1 & s2 & j & H1 & _ & _ & H2 & _ & _ & _ & H3).
  - cbn. apply elem_of_cons. now left.
  - reflexivity.
  - cbn. intros H. apply list_elem_of_singleton in H. discriminate.
  - now left.
  - exists s1, s2. split; [exact H1|]. split; [exact H2|]. rewrite H3. reflexivity.
Defined.

(** ** The price clauses of the filter *)

Lemma js_not_true (x : option float) :
  js_not x = true <->
  x = None \/ exists m, x = Some m /\ (PrimFloat.is_zero m = true \/ PrimFloat.is_nan m = true).
Proof.
  destruct x as [m|]; cbn.
  - unfold Num.truthy, Num.zero, PrimFloat.is_zero. rewrite negb_involutive, orb_true_iff.
    split.
    + intros H. right. now exists m.
    + intros [H|(m' & [= <-] & H)]; [discriminate | exact H].
  - split; [now left | reflexivity].
Qed.

(** C7 (counterexample).  With [maxPrice] set to 0, a finite number, a
    transaction of amount 5 passes the maximum-price clause although 5
    is above 0: the clause does not hold exactly when [maxPrice] is
    unset, not finite, or at least the amount. *)
Lemma C7_counterexample :
  let filters := {| search := ""; category := "all"; dateRange := "all";
                    minPrice := Some 0%float; maxPrice := Some 0%float |} in
  let t := priced 5%float in
  ~ (matchesMax filters t = true <->
     maxPrice filters = None
     \/ exists m, maxPrice filters = Some m
                  /\ (PrimFloat.is_finite m = false \/ Num.le (tx_amount t) m = true)).
Proof.
  cbn zeta. intros [H _].
  destruct (H eq_refl) as [H'|(m & [= <-] & [H'|H'])]; vm_compute in H'; discriminate.
Qed.

(** C7 (amended).  The minimum-price clause holds exactly when
    [minPrice] is unset, zero or NaN, or the amount is at least
    [minPrice]; the maximum-price clause holds exactly when [maxPrice]
    is unset, zero or NaN, or the amount is at most [maxPrice].  With
    bounds 10 and 50, amount 5 fails the minimum clause, amount 25
    passes both, amount 100 fails the maximum clause; the filter
    callback returns false for 5 and 100, whatever the other filters. *)
Theorem C7_price_clauses :
  (forall filters t,
     (matchesMin filters t = true <->
      minPrice filters = None
      \/ exists m, minPrice filters = Some m
           /\ (PrimFloat.is_zero m = true \/ PrimFloat.is_nan m = true
               \/ Num.ge (tx_amount t) m = true))
     /\ (matchesMax filters t = true <->
      maxPrice filters = None
      \/ exists m, maxPrice filters = Some m
           /\ (PrimFloat.is_zero m = true \/ PrimFloat.is_nan m = true
               \/ Num.le (tx_amount t) m = true)))
  /\ (forall s c d,
       let filters := between_10_and_50 s c d in
       matchesMin filters (priced 5) = false
       /\ matchesMin filters (priced 25) = true
       /\ matchesMax filters (priced 25) = true
       /\ matchesMax filters (priced 100) = false)
  /\ (forall toLowerCase sameDay withinWeek sameMonth sameYear s c d,
       let filters := between_10_and_50 s c d in
       let callback := matchesFilters toLowerCase sameDay withinWeek sameMonth sameYear in
       callback filters (obj (priced 5)) = Normal false
       /\ callback filters (obj (priced 100)) = Normal false
       /\ callback filters (obj (priced 25))
          = Normal (includes (toLowerCase (tx_description (priced 25))) (toLowerCase s)
                    && (String.eqb c "all" || String.eqb (tx_category (priced 25)) c)
                    && matchesDate sameDay withinWeek sameMonth sameYear filters (priced 25))).
Proof.
  split; [|split].
  - intros filters t. unfold matchesMin, matchesMax. rewrite !orb_true_iff, !js_not_true.
    split.
    + destruct (minPrice filters) as [m|]; cbn; split.
      * intros [[H|(m' & [= <-] & H)]|H]; [discriminate| |]; right; exists m; tauto.
      * intros [H|(m' & [= <-] & [H|[H|H]])]; [discriminate| | |];
          [left; right; exists m; tauto | left; right; exists m; tauto | now right].
      * intros _. now left.
      * intros _. left. now left.
    + destruct (maxPrice filters) as [m|]; cbn; split.
      * intros [[H|(m' & [= <-] & H)]|H]; [discriminate| |]; right; exists m; tauto.
      * intros [H|(m' & [= <-] & [H|[H|H]])]; [discriminate| | |];
          [left; right; exists m; tauto | left; right; exists m; tauto | now right].
      * intros _. now left.
      * intros _. left. now left.
  - intros s c d filters. repeat split; vm_compute; reflexivity.
  - intros toLowerCase sameDay withinWeek sameMonth sameYear s c d filters callback.
    unfold callback, matchesFilters.
    assert (H5 : matchesMin filters (priced 5) = false) by (vm_compute; reflexivity).
    assert (H100 : matchesMax filters (priced 100) = false) by (vm_compute; reflexivity).
    assert (H25 : matchesMin filters (priced 25) = true) by (vm_compute; reflexivity).
    assert (H25' : matchesMax filters (priced 25) = true) by (vm_compute; reflexivity).
    rewrite H5, H100, H25, H25'. repeat split.
    + now rewrite andb_false_r.
    + now rewrite andb_false_r.
    + now rewrite !andb_true_r.
Qed.

(** ** The pie chart *)

Section ChartFacts.
Import Charts Unrolled.
Variables cos sin : float -> float.
Variable total : float.


Lemma wedges_lookup (data : list Slice) (i : nat) (s : Slice) :
  data !! i = Some s ->
  wedges cos sin total data !! i = Some (wedge cos sin total (take i data) s).
Proof. intros H. unfold wedges. rewrite list_lookup_imap, H. reflexivity. Qed.

End ChartFacts.

Section ReadingTheChart.
Import SvgReader.








Variables cos sin : float -> float.
Variable total : float.


End ReadingTheChart.


(** ** Further properties of the reducers *)

(** The reducers throw on a deletion over a list that holds
    [undefined], and on nothing else. *)
Theorem reducers_throw_exactly_on_delete_over_undefined :
  forall (s : State) (a : Action),
    (Store.expenseReducer s a = TypeError <-> reducer_throws s a)
    /\ (Main.expenseReducer s a = TypeError <-> reducer_throws s a)
    /\ (~ reducer_throws s a ->
        (exists s', Store.expenseReducer s a = Normal s')
        /\ (exists s', Main.expenseReducer s a = Normal s')).
Proof.
  intros s a.
  destruct (Store_reducer_cases s a) as [[[s1 H1] N1]|[H1 T1]];
  destruct (Main_reducer_cases s a) as [[[s2 H2] N2]|[H2 T2]];
    try contradiction; rewrite H1, H2.
  - split; [split; [discriminate | contradiction]|].
    split; [split; [discriminate | contradiction]|]. eauto.
  - split; [tauto|]. split; [tauto|]. contradiction.
Qed.

Lemma reducers_throw_witness :
  Store.expenseReducer
    {| transactions := [undefined]; history := []; theme := "dark"; currency := "USD";
       filters := filters Store.initialState; persist := true |}
    (DELETE_TRANSACTION "k3x9q2m1z") = TypeError
  /\ exists s', Store.expenseReducer coffee_added (SET_THEME "light") = Normal s'.
Proof.
  split.
  - apply (proj1 (reducers_throw_exactly_on_delete_over_undefined _ _)).
    split; [now eexists | apply elem_of_cons; now left].
  - apply (proj2 (proj2 (reducers_throw_exactly_on_delete_over_undefined
                           coffee_added (SET_THEME "light")))).
    intros [[i Hi] _]. discriminate.
Defined.

(** The reducer of [main.js] is the reducer of [store.js] with the
    [SET_CURRENCY] case taken out. *)
Theorem main_reducer_is_store_reducer_without_currency :
  forall (s : State) (a : Action),
    Main.expenseReducer s a
    = match a with
      | SET_CURRENCY _ => Normal s
      | _ => Store.expenseReducer s a
      end.
Proof. intros s a. destruct a; reflexivity. Qed.

(** A deletion whose id no transaction of the list carries returns the
    state with its transactions as they were and one more history entry,
    whose data is [undefined]. *)
Theorem delete_of_missing_id_pushes_undefined :
  forall (s : State) (i : string),
    undefined ∉ transactions s ->
    (forall t, obj t ∈ transactions s -> tx_id t <> i) ->
    let s' := {| transactions := transactions s;
                 history := slice0 50 ({| h_type := "DELETE"; h_data := undefined |}
                                         :: history s);
                 theme := theme s; currency := currency s;
                 filters := filters s; persist := persist s |} in
    Store.expenseReducer s (DELETE_TRANSACTION i) = Normal s'
    /\ Main.expenseReducer s (DELETE_TRANSACTION i) = Normal s'.
Proof.
  intros s i Hu Hm s'.
  assert (H : Store.expenseReducer s (DELETE_TRANSACTION i) = Normal s').
  { rewrite (Store_delete_objects _ _ Hu). unfold deleted, s'.
    now rewrite (without_id_missing _ _ Hu Hm), (first_with_id_missing _ _ Hm). }
  split; [exact H|]. now rewrite Main_reducer_agrees.
Qed.

Lemma delete_of_missing_id_witness :
  exists s',
    Store.expenseReducer coffee_added (DELETE_TRANSACTION "missing") = Normal s'
    /\ transactions s' = [obj coffee]
    /\ head (history s') = Some {| h_type := "DELETE"; h_data := undefined |}.
Proof.
  destruct (delete_of_missing_id_pushes_undefined coffee_added "missing") as [H _].
  - cbn. intros H. apply list_elem_of_singleton in H. discriminate.
  - cbn. intros t H. apply list_elem_of_singleton in H. injection H as ->. discriminate.
  - eexists. split; [exact H|]. split; reflexivity.
Defined.

Lemma without_id_sublist (i : string) (l : list JsTx) : sublist (without_id i l) l.
Proof.
  induction l as [|x l IH]; [constructor|].
  unfold without_id in *. cbn. destruct (negb (has_id i x)); now constructor.
Qed.

(** Over a list of transaction objects a deletion returns; it keeps the
    transactions whose id differs from the payload, all of them and in
    their order, removes every transaction with that id, and changes no
    field other than the transactions and the history. *)
Theorem delete_keeps_exactly_the_others :
  forall (s : State) (i : string),
    undefined ∉ transactions s ->
    forall R, (R = Store.expenseReducer) \/ (R = Main.expenseReducer) ->
    exists s',
      R s (DELETE_TRANSACTION i) = Normal s'
      /\ (forall t, obj t ∈ transactions s' <-> obj t ∈ transactions s /\ tx_id t <> i)
      /\ sublist (transactions s') (transactions s)
      /\ (undefined ∉ transactions s')
      /\ theme s' = theme s /\ currency s' = currency s
      /\ filters s' = filters s /\ persist s' = persist s.
Proof.
  intros s i Hu R HR.
  exists (deleted s i). split.
  - destruct HR as [-> | ->]; [| rewrite Main_reducer_agrees by discriminate];
      now apply Store_delete_objects.
  - split; [intros t; apply elem_of_without_id|].
    split; [apply without_id_sublist|].
    split; [|repeat split].
    intros H. apply Hu. eapply elem_of_sublist; [exact H | apply without_id_sublist].
Qed.

Lemma delete_keeps_exactly_the_others_witness :
  exists s',
    Store.expenseReducer coffee_added (DELETE_TRANSACTION "k3x9q2m1z") = Normal s'
    /\ sublist (transactions s') [obj coffee].
Proof.
  destruct (delete_keeps_exactly_the_others coffee_added "k3x9q2m1z")
    with (R := Store.expenseReducer) as (s' & H1 & _ & H2 & _).
  - cbn. intros H. apply list_elem_of_singleton in H. discriminate.
  - now left.
  - exists s'. split; [exact H1 | exact H2].
Defined.

(** ** After an undefined has entered the list *)

Lemma Store_undefined_stays (s s' : State) (a : Action) :
  Store.expenseReducer s a = Normal s' ->
  undefined ∈ transactions s -> undefined ∈ transactions s'.
Proof.
  intros Hr Hu. destruct a as [p|i|p|p|p|ty].
  2: { rewrite Store_delete_undefined in Hr by assumption. discriminate. }
  all: cbn in Hr; injection Hr as <-; cbn; try assumption.
  apply elem_of_cons. now right.
Qed.

Lemma Main_undefined_stays (s s' : State) (a : Action) :
  Main.expenseReducer s a = Normal s' ->
  undefined ∈ transactions s -> undefined ∈ transactions s'.
Proof.
  destruct a; try (rewrite Main_reducer_agrees by discriminate; apply Store_undefined_stays).
  cbn. now intros [= <-].
Qed.

(** Undoing the deletion of an id that was not in the list puts
    [undefined] at the head of the transactions; from then on, whatever
    is dispatched, every deletion throws and the list can only grow. *)
Theorem undo_of_missing_delete_blocks_deletion :
  forall (store : StoreObj) (i : string),
    undefined ∉ transactions (getState store) ->
    (forall t, obj t ∈ transactions (getState store) -> tx_id t <> i) ->
    forall R, (R = Store.expenseReducer) \/ (R = Main.expenseReducer) ->
    exists store1 store2,
      deleteTransaction R store i = Normal store1
      /\ undoLastAction R store1 = Normal store2
      /\ transactions (getState store2) = undefined :: transactions (getState store)
      /\ forall actions j,
           deleteTransaction R (dispatch_all R store2 actions) j = TypeError.
Proof.
  intros store i Hu Hm R HR.
  assert (Hdel : forall s j, R s (DELETE_TRANSACTION j)
                             = Store.expenseReducer s (DELETE_TRANSACTION j))
    by (destruct HR as [-> | ->]; reflexivity).
  assert (Hadd : forall s p, R s (ADD_TRANSACTION p)
                             = Store.expenseReducer s (ADD_TRANSACTION p))
    by (destruct HR as [-> | ->]; reflexivity).
  assert (Hstay : forall s a s', R s a = Normal s' ->
            undefined ∈ transactions s -> undefined ∈ transactions s')
    by (destruct HR as [-> | ->]; intros s0 a0 s0';
        [apply Store_undefined_stays | apply Main_undefined_stays]).
  unfold getState in *.
  eexists. eexists. split.
  { unfold deleteTransaction, dispatch. rewrite Hdel, (Store_delete_objects _ _ Hu).
    reflexivity. }
  split.
  { unfold undoLastAction, getState. cbn -[slice0].
    rewrite slice0_cons, (first_with_id_missing _ _ Hm). cbn -[slice0].
    unfold dispatch. rewrite Hadd. reflexivity. }
  split.
  { cbn -[slice0]. now rewrite (without_id_missing _ _ Hu Hm). }
  intros actions j. unfold deleteTransaction, dispatch. rewrite Hdel.
  rewrite Store_delete_undefined; [reflexivity|].
  apply (dispatch_all_invariant R (fun s => undefined ∈ transactions s) Hstay).
  cbn -[slice0]. apply elem_of_cons. now left.
Qed.

Lemma undo_of_missing_delete_witness :
  exists store1 store2,
    deleteTransaction Store.expenseReducer (createStore coffee_added None) "missing"
    = Normal store1
    /\ undoLastAction Store.expenseReducer store1 = Normal store2
    /\ transactions (getState store2) = [undefined; obj coffee]
    /\ deleteTransaction Store.expenseReducer store2 "k3x9q2m1z" = TypeError.
Proof.
  destruct (undo_of_missing_delete_blocks_deletion (createStore coffee_added None) "missing")
    with (R := Store.expenseReducer) as (s1 & s2 & H1 & H2 & H3 & H4).
  - cbn. intros H. apply list_elem_of_singleton in H. discriminate.
  - cbn. intros t H. apply list_elem_of_singleton in H. injection H as ->. discriminate.
  - now left.
  - exists s1, s2. split; [exact H1|]. split; [exact H2|]. split; [exact H3|].
    exact (H4 [] "k3x9q2m1z").
Defined.

(** ** Slices *)


(** ** Merging filters *)

Lemma merge_filters_twice (fs : FilterState) (p q : FilterPatch) :
  merge_filters (merge_filters fs p) q = merge_filters fs (patch_then p q).
Proof.
  unfold merge_filters, patch_then. cbn.
  destruct (p_search q), (p_category q), (p_dateRange q), (p_minPrice q), (p_maxPrice q);
    reflexivity.
Qed.

(** Two [SET_FILTER] actions in a row have the effect of one whose
    payload has the keys of both, the later values winning; a filter the
    payloads do not name keeps its value.  In particular
    [{ category: c }] followed by [{ search: s }] sets both and leaves
    the date range and the price bounds as they were. *)
Theorem set_filter_merges :
  forall (s : State) (p q : FilterPatch) R,
    (R = Store.expenseReducer) \/ (R = Main.expenseReducer) ->
    (exists s1 s2,
       R s (SET_FILTER p) = Normal s1
       /\ R s1 (SET_FILTER q) = Normal s2
       /\ R s (SET_FILTER (patch_then p q)) = Normal s2
       /\ transactions s2 = transactions s /\ history s2 = history s
       /\ theme s2 = theme s /\ currency s2 = currency s /\ persist s2 = persist s)
    /\ (forall c t,
          exists s1 s2,
            R s (SET_FILTER (category_patch c)) = Normal s1
            /\ R s1 (SET_FILTER (search_patch t)) = Normal s2
            /\ filters s2 = {| search := t; category := c;
                               dateRange := dateRange (filters s);
                               minPrice := minPrice (filters s);
                               maxPrice := maxPrice (filters s) |}).
Proof.
  intros s p q R HR. split.
  - eexists. eexists.
    split; [destruct HR as [-> | ->]; reflexivity|].
    split; [destruct HR as [-> | ->]; reflexivity|].
    split; [|repeat split].
    destruct HR as [-> | ->]; cbn; now rewrite merge_filters_twice.
  - intros c t. eexists. eexists.
    split; [destruct HR as [-> | ->]; reflexivity|].
    split; [destruct HR as [-> | ->]; reflexivity|].
    reflexivity.
Qed.

Lemma set_filter_merges_witness :
  exists s1 s2,
    Store.expenseReducer Store.initialState (SET_FILTER (category_patch "food")) = Normal s1
    /\ Store.expenseReducer s1 (SET_FILTER (search_patch "coffee")) = Normal s2
    /\ filters s2 = {| search := "coffee"; category := "food"; dateRange := "all";
                       minPrice := None; maxPrice := None |}.
Proof.
  destruct (set_filter_merges Store.initialState (category_patch "food")
              (search_patch "coffee") Store.expenseReducer (or_introl eq_refl))
    as [_ H].
  destruct (H "food" "coffee") as (s1 & s2 & H1 & H2 & H3).
  exists s1, s2. split; [exact H1|]. split; [exact H2 | exact H3].
Defined.

(** ** Undo as a toggle *)

(** Adding a transaction object to a list of transaction objects and
    undoing removes it again, together with every older transaction that
    carries its id; when the id is new, the list is as it was before the
    addition.  The history keeps both steps. *)
Theorem add_then_undo :
  forall (store : StoreObj) (t : Transaction) R,
    (R = Store.expenseReducer) \/ (R = Main.expenseReducer) ->
    undefined ∉ transactions (getState store) ->
    exists store1 store2,
      dispatch R store (ADD_TRANSACTION (obj t)) = Normal store1
      /\ undoLastAction R store1 = Normal store2
      /\ transactions (getState store2)
         = without_id (tx_id t) (transactions (getState store))
      /\ ((forall t', obj t' ∈ transactions (getState store) -> tx_id t' <> tx_id t) ->
          transactions (getState store2) = transactions (getState store))
      /\ history (getState store2)
         = slice0 50 ({| h_type := "DELETE"; h_data := obj t |}
                        :: {| h_type := "ADD"; h_data := obj t |}
                        :: history (getState store)).
Proof.
  intros store t R HR Hu. unfold getState in *.
  assert (Hdel : forall s j, R s (DELETE_TRANSACTION j)
                             = Store.expenseReducer s (DELETE_TRANSACTION j))
    by (destruct HR as [-> | ->]; reflexivity).
  assert (Hadd : forall s p, R s (ADD_TRANSACTION p)
                             = Store.expenseReducer s (ADD_TRANSACTION p))
    by (destruct HR as [-> | ->]; reflexivity).
  eexists. eexists.
  split; [unfold dispatch; rewrite Hadd; reflexivity|].
  split.
  { unfold undoLastAction, getState. cbn -[slice0]. rewrite slice0_cons. cbn -[slice0].
    unfold dispatch. rewrite Hdel, Store_delete_objects; [reflexivity|].
    cbn. intros H. apply elem_of_cons in H as [H|H]; [discriminate | contradiction]. }
  assert (Ht : without_id (tx_id t) (obj t :: transactions (st_state store))
               = without_id (tx_id t) (transactions (st_state store))).
  { unfold without_id. cbn. now rewrite String.eqb_refl. }
  split; [cbn -[slice0 without_id]; exact Ht|].
  split.
  { intros Hfresh. cbn -[slice0 without_id]. rewrite Ht.
    now apply without_id_missing. }
  cbn -[slice0 without_id first_with_id]. unfold first_with_id. cbn -[slice0].
  rewrite String.eqb_refl. cbn -[slice0].
  unfold slice0. cbn. now rewrite take_take.
Qed.

Lemma add_then_undo_witness :
  exists store1 store2,
    dispatch Store.expenseReducer (createStore Store.initialState None)
      (ADD_TRANSACTION (obj coffee)) = Normal store1
    /\ undoLastAction Store.expenseReducer store1 = Normal store2
    /\ transactions (getState store2) = [].
Proof.
  destruct (add_then_undo (createStore Store.initialState None) coffee
              Store.expenseReducer (or_introl eq_refl))
    as (s1 & s2 & H1 & H2 & H3 & _).
  - cbn. apply not_elem_of_nil.
  - exists s1, s2. split; [exact H1|]. split; [exact H2 | exact H3].
Defined.

Lemma first_with_id_head (t : Transaction) (l : list JsTx) :
  first_with_id (tx_id t) (obj t :: l) = obj t.
Proof. unfold first_with_id. cbn. now rewrite String.eqb_refl. Qed.

Lemma without_id_head (t : Transaction) (l : list JsTx) :
  without_id (tx_id t) (obj t :: l) = without_id (tx_id t) l.
Proof. unfold without_id. cbn. now rewrite String.eqb_refl. Qed.

(** Undo twice is redo.  When the top history entry is the addition of
    the transaction at the head of the list, or the deletion of a
    transaction whose id is no longer in the list, and no other
    transaction carries that id, two undos in a row return and leave the
    transactions as they were, with the same entry on top of a history
    that is two entries longer (up to the bound of 50). *)
Theorem undo_twice_restores_transactions :
  forall (store : StoreObj) (e : HistoryEntry) (rest : list HistoryEntry)
         (t : Transaction) R,
    (R = Store.expenseReducer) \/ (R = Main.expenseReducer) ->
    history (getState store) = e :: rest ->
    h_data e = obj t ->
    undefined ∉ transactions (getState store) ->
    (h_type e = "ADD"
     /\ exists others, transactions (getState store) = obj t :: others
                       /\ forall t', obj t' ∈ others -> tx_id t' <> tx_id t)
    \/ (h_type e = "DELETE"
        /\ forall t', obj t' ∈ transactions (getState store) -> tx_id t' <> tx_id t) ->
    exists store1 store2,
      undoLastAction R store = Normal store1
      /\ undoLastAction R store1 = Normal store2
      /\ transactions (getState store2) = transactions (getState store)
      /\ history (getState store2)
         = slice0 50 (e :: inverse_entry (transactions (getState store)) e :: e :: rest).
Proof.
  intros store e rest t R HR Hh Hd Hu Hc.
  assert (Hdel : forall s j, R s (DELETE_TRANSACTION j)
                             = Store.expenseReducer s (DELETE_TRANSACTION j))
    by (destruct HR as [-> | ->]; reflexivity).
  assert (Hadd : forall s p, R s (ADD_TRANSACTION p)
                             = Store.expenseReducer s (ADD_TRANSACTION p))
    by (destruct HR as [-> | ->]; reflexivity).
  destruct e as [ty d]. cbn in Hd. subst d.
  destruct Hc as [(Hty & others & Htx & Hfresh) | (Hty & Hfresh)]; cbn in Hty; subst ty.
  - rewrite (undo_top_add R store _ rest t Hh eq_refl eq_refl).
    unfold dispatch at 1. rewrite Hdel, (Store_delete_objects _ _ Hu).
    eexists. eexists. split; [reflexivity|].
    unfold getState in *. rewrite Htx in Hu.
    apply not_elem_of_cons in Hu as [_ Hu'].
    split.
    { unfold undoLastAction, getState. cbn -[slice0 first_with_id without_id].
      rewrite slice0_cons, Htx, first_with_id_head. cbn -[slice0 without_id].
      unfold dispatch. rewrite Hadd. reflexivity. }
    split.
    { cbn -[slice0 first_with_id without_id].
      rewrite Htx, ?first_with_id_head, without_id_head.
      now rewrite (without_id_missing _ _ Hu' Hfresh). }
    cbn -[slice0 first_with_id without_id].
    rewrite Hh, ?Htx, ?first_with_id_head. unfold inverse_entry.
    cbn -[slice0 first_with_id]. rewrite ?Htx, ?first_with_id_head.
    unfold slice0. cbn. now rewrite take_take.
  - rewrite (undo_top_delete R store _ rest Hh eq_refl).
    unfold dispatch at 1. rewrite Hadd.
    eexists. eexists. split; [reflexivity|].
    unfold getState in *.
    split.
    { unfold undoLastAction, getState. cbn -[slice0].
      rewrite slice0_cons. cbn -[slice0].
      unfold dispatch. rewrite Hdel, Store_delete_objects; [reflexivity|].
      cbn. intros H. apply elem_of_cons in H as [H|H]; [discriminate | contradiction]. }
    split.
    { cbn -[slice0 first_with_id without_id]. rewrite without_id_head.
      now apply without_id_missing. }
    cbn -[slice0 first_with_id without_id].
    rewrite Hh, ?first_with_id_head. unfold inverse_entry. cbn -[slice0].
    unfold slice0. cbn. now rewrite take_take.
Qed.

Lemma undo_twice_restores_transactions_witness :
  exists store1 store2,
    undoLastAction Store.expenseReducer (createStore coffee_added None) = Normal store1
    /\ undoLastAction Store.expenseReducer store1 = Normal store2
    /\ transactions (getState store2) = [obj coffee].
Proof.
  destruct (undo_twice_restores_transactions (createStore coffee_added None)
              {| h_type := "ADD"; h_data := obj coffee |} [] coffee
              Store.expenseReducer (or_introl eq_refl))
    as (s1 & s2 & H1 & H2 & H3 & _).
  - reflexivity.
  - reflexivity.
  - cbn. intros H. apply list_elem_of_singleton in H. discriminate.
  - left. split; [reflexivity|]. exists []. split; [reflexivity|].
    intros t' H. now apply not_elem_of_nil in H.
  - exists s1, s2. split; [exact H1|]. split; [exact H2 | exact H3].
Defined.

(** ** Subscribing and unsubscribing *)

Lemma splice_minus_one {A : Type} (l : list A) : splice (-1) 1 l = removelast l.
Proof.
  destruct l as [|x l] using rev_ind.
  - apply splice_empty.
  - rewrite splice_last. symmetry. apply removelast_last.
Qed.

(** Called while its listener is registered, an unsubscribe function
    removes the first occurrence of that listener and keeps every other
    entry in place; nothing else of the store changes. *)
Theorem unsubscribe_removes_first_occurrence :
  forall (store : StoreObj) (listener : Listener) (before after : list Listener),
    st_listeners store = before ++ listener :: after ->
    listener ∉ before ->
    unsubscribe listener store
    = {| st_state := st_state store; st_listeners := before ++ after;
         st_called := st_called store; st_saved := st_saved store |}.
Proof.
  intros store listener before after Hl Hb. unfold unsubscribe.
  rewrite Hl, (indexOf_first _ _ _ Hb), splice_at. reflexivity.
Qed.

Lemma unsubscribe_removes_first_occurrence_witness :
  st_listeners (unsubscribe 7 {| st_state := Store.initialState; st_listeners := [3; 7; 5; 7];
                                 st_called := []; st_saved := None |})
  = [3; 5; 7].
Proof.
  rewrite (unsubscribe_removes_first_occurrence _ 7 [3] [5; 7]).
  - reflexivity.
  - reflexivity.
  - intros H. apply list_elem_of_singleton in H. discriminate.
Defined.

(** Called when its listener is not registered (a second call, say), an
    unsubscribe function removes the last listener of the list, whichever
    it is; on an empty list it does nothing. *)
Theorem unsubscribe_of_absent_removes_last :
  forall (store : StoreObj) (listener : Listener),
    listener ∉ st_listeners store ->
    st_listeners (unsubscribe listener store) = removelast (st_listeners store).
Proof.
  intros store listener H. unfold unsubscribe. cbn.
  rewrite (indexOf_absent _ _ H). apply splice_minus_one.
Qed.

Lemma unsubscribe_of_absent_removes_last_witness :
  st_listeners (unsubscribe 7 {| st_state := Store.initialState; st_listeners := [3; 5];
                                 st_called := []; st_saved := None |})
  = [3].
Proof.
  rewrite unsubscribe_of_absent_removes_last.
  - reflexivity.
  - cbn. intros H. apply elem_of_cons in H as [H|H]; [discriminate|].
    apply list_elem_of_singleton in H. discriminate.
Defined.

(** Subscribing a listener that is not yet registered and calling the
    function returned once gives back the store as it was. *)
Theorem subscribe_then_unsubscribe :
  forall (store : StoreObj) (listener : Listener),
    listener ∉ st_listeners store ->
    unsubscribe listener (subscribe store listener) = store.
Proof.
  intros [s ls called saved] listener H. cbn in H.
  unfold unsubscribe, subscribe. cbn [st_state st_listeners st_called st_saved].
  rewrite (indexOf_first _ _ _ H), splice_at, app_nil_r. reflexivity.
Qed.

Lemma subscribe_then_unsubscribe_witness :
  unsubscribe 4 (subscribe (createStore Store.initialState None) 4)
  = createStore Store.initialState None.
Proof.
  apply subscribe_then_unsubscribe. cbn. apply not_elem_of_nil.
Defined.

(** ** Derived views *)

Lemma le_Infinity (x : float) :
  Num.le x Num.Infinity = negb (PrimFloat.is_nan x).
Proof.
  unfold Num.le, Num.Infinity, PrimFloat.is_nan.
  rewrite FloatAxioms.leb_spec, FloatAxioms.eqb_spec.
  change (Prim2SF PrimFloat.infinity) with (SpecFloat.S754_infinity false).
  destruct (Prim2SF x) as [s|s| |s m e]; try (destruct s; reflexivity); try reflexivity.
  unfold SpecFloat.SFeqb, SpecFloat.SFcompare.
  destruct s; rewrite Z.compare_refl, Pos.compare_cont_refl; reflexivity.
Qed.

Lemma includes_empty (s : string) : includes s "" = true.
Proof. destruct s; reflexivity. Qed.

Lemma filter_all {A : Type} (g : A -> bool) (l : list A) :
  (forall x, x ∈ l -> g x = true) -> List.filter g l = l.
Proof.
  induction l as [|x l IH]; intros H; [reflexivity|]. cbn.
  rewrite (H x) by (apply elem_of_cons; now left).
  f_equal. apply IH. intros y Hy. apply H. apply elem_of_cons. now right.
Qed.

Lemma js_filter_all (cb : JsTx -> completion bool) (l : list JsTx) :
  (forall x, x ∈ l -> cb x = Normal true) -> js_filter cb l = Normal l.
Proof.
  induction l as [|x l IH]; intros H; [reflexivity|]. cbn.
  rewrite (H x) by (apply elem_of_cons; now left). cbn.
  rewrite IH; [reflexivity|]. intros y Hy. apply H. apply elem_of_cons. now right.
Qed.

(** With the filters of the initial state of [store.js] every
    transaction is listed; with those of [main.js], whose [maxPrice] is
    [Infinity], a transaction is listed unless its amount is NaN. *)
Theorem initial_filters_list_everything_but_NaN :
  forall toLowerCase sameDay withinWeek sameMonth sameYear,
    toLowerCase "" = "" ->
    (forall t,
       matchesFilters toLowerCase sameDay withinWeek sameMonth sameYear
         (filters Store.initialState) (obj t) = Normal true)
    /\ (forall t,
       matchesFilters toLowerCase sameDay withinWeek sameMonth sameYear
         (filters Main.initialState) (obj t)
       = Normal (negb (PrimFloat.is_nan (tx_amount t))))
    /\ (forall s, filters s = filters Store.initialState ->
         undefined ∉ transactions s ->
         filtered toLowerCase sameDay withinWeek sameMonth sameYear s
         = Normal (transactions s)).
Proof.
  intros toLowerCase sameDay withinWeek sameMonth sameYear Hlow.
  assert (H1 : forall t,
       matchesFilters toLowerCase sameDay withinWeek sameMonth sameYear
         (filters Store.initialState) (obj t) = Normal true).
  { intros t. unfold matchesFilters. cbn. now rewrite Hlow, includes_empty. }
  split; [exact H1|]. split.
  - intros t. unfold matchesFilters, matchesMin, matchesMax. cbn -[Num.le].
    rewrite Hlow, includes_empty, le_Infinity. reflexivity.
  - intros s Hf Hu. unfold filtered. rewrite Hf. apply js_filter_all.
    intros [|t] Hx; [contradiction | apply H1].
Qed.

Lemma initial_filters_witness :
  matchesFilters (fun s => s) (fun _ => false) (fun _ => false) (fun _ => false)
    (fun _ => false) (filters Main.initialState) (obj (priced Num.NaN))
  = Normal false.
Proof.
  rewrite (proj1 (proj2 (initial_filters_list_everything_but_NaN (fun s => s)
             (fun _ => false) (fun _ => false) (fun _ => false) (fun _ => false) eq_refl))).
  reflexivity.
Defined.

(** What the two price inputs set, and what the clauses then test.  The
    minimum clause compares the amount with the number typed, and holds
    for every transaction when the input is empty or zero; the maximum
    clause compares the amount with the number typed, an empty or zero
    input standing for [Infinity], which admits every amount but NaN. *)
Theorem price_inputs :
  forall (s : State) (parsed : float) (t : Transaction) R,
    (R = Store.expenseReducer) \/ (R = Main.expenseReducer) ->
    (exists s', R s (minPriceAction parsed) = Normal s'
       /\ maxPrice (filters s') = maxPrice (filters s)
       /\ matchesMin (filters s') t
          = if Num.truthy parsed then Num.ge (tx_amount t) parsed else true)
    /\ (exists s', R s (maxPriceAction parsed) = Normal s'
       /\ minPrice (filters s') = minPrice (filters s)
       /\ matchesMax (filters s') t
          = if Num.truthy parsed then Num.le (tx_amount t) parsed
            else negb (PrimFloat.is_nan (tx_amount t))).
Proof.
  intros s parsed t R HR. split.
  - eexists. split; [destruct HR as [-> | ->]; reflexivity|].
    split; [reflexivity|].
    unfold matchesMin. cbn. destruct (Num.truthy parsed) eqn:Hp; cbn.
    + now rewrite Hp.
    + reflexivity.
  - eexists. split; [destruct HR as [-> | ->]; reflexivity|].
    split; [reflexivity|].
    unfold matchesMax. cbn -[Num.le]. destruct (Num.truthy parsed) eqn:Hp; cbn -[Num.le].
    + now rewrite Hp.
    + now rewrite le_Infinity.
Qed.

Lemma price_inputs_witness :
  exists s',
    Store.expenseReducer Store.initialState (maxPriceAction Num.zero) = Normal s'
    /\ matchesMax (filters s') coffee = true.
Proof.
  destruct (proj2 (price_inputs Store.initialState Num.zero coffee
                     Store.expenseReducer (or_introl eq_refl)))
    as (s' & H1 & _ & H2).
  exists s'. split; [exact H1|]. rewrite H2. reflexivity.
Defined.

Lemma js_reduce_amounts (l : list JsTx) (init : float) :
  undefined ∉ l ->
  js_reduce (fun acc t => a ← get_prop tx_amount t; Normal (acc + a)%float) init l
  = Normal (fold_left (fun acc t => (acc + amount_of t)%float) l init).
Proof.
  revert init. induction l as [|x l IH]; intros init Hl; [reflexivity|].
  apply not_elem_of_cons in Hl as [Hx Hl].
  destruct x as [|o]; [congruence|]. cbn. now apply IH.
Qed.

Lemma filter_keeps_objects (g : JsTx -> bool) (l : list JsTx) :
  undefined ∉ l -> undefined ∉ List.filter g l.
Proof.
  intros Hl H. apply Hl. apply list_elem_of_In in H.
  apply List.filter_In in H as [H _]. now apply list_elem_of_In.
Qed.

Lemma sumOfType_objects (ty : string) (l : list JsTx) :
  undefined ∉ l ->
  sumOfType ty l
  = Normal (fold_left (fun acc t => (acc + amount_of t)%float)
                      (List.filter (has_type ty) l) Num.zero).
Proof.
  intros Hl. unfold sumOfType.
  rewrite (js_filter_objects _ (has_type ty)) by (reflexivity || assumption). cbn.
  apply js_reduce_amounts. now apply filter_keeps_objects.
Qed.

Lemma sumOfType_undefined (ty : string) (l : list JsTx) :
  undefined ∈ l -> sumOfType ty l = TypeError.
Proof.
  intros Hl. unfold sumOfType.
  rewrite (js_filter_undefined
             (fun t => y ← get_prop tx_type t; Normal (String.eqb y ty)))
    by (reflexivity || assumption).
  reflexivity.
Qed.

Lemma filter_sublist {A : Type} (g : A -> bool) (l : list A) :
  sublist (List.filter g l) l.
Proof.
  induction l as [|x l IH]; [constructor|]. cbn. destruct (g x); now constructor.
Qed.

(** The dashboard totals and the filtered list are computed when the
    transactions are all transaction objects, and only then: on a list
    that holds [undefined] both throw.  When computed, the total is
    income minus expense, each the sum from zero, in list order, of the
    amounts of the transactions of that type; the filtered list is a
    sublist of the transactions whose elements pass the filter. *)
Theorem views_need_transaction_objects :
  forall (s : State) toLowerCase sameDay withinWeek sameMonth sameYear,
    let view := filtered toLowerCase sameDay withinWeek sameMonth sameYear s in
    let callback := matchesFilters toLowerCase sameDay withinWeek sameMonth sameYear
                      (filters s) in
    (undefined ∈ transactions s -> dashboardTotals s = TypeError /\ view = TypeError)
    /\ (undefined ∉ transactions s ->
        (exists totals,
           dashboardTotals s = Normal totals
           /\ income totals
              = fold_left (fun acc t => (acc + amount_of t)%float)
                  (List.filter (has_type "income") (transactions s)) Num.zero
           /\ expense totals
              = fold_left (fun acc t => (acc + amount_of t)%float)
                  (List.filter (has_type "expense") (transactions s)) Num.zero
           /\ total totals = (income totals - expense totals)%float)
        /\ (exists shown,
              view = Normal shown
              /\ sublist shown (transactions s)
              /\ forall x, x ∈ shown <-> x ∈ transactions s /\ callback x = Normal true)).
Proof.
  intros s toLowerCase sameDay withinWeek sameMonth sameYear view callback. split.
  - intros Hu. split.
    + unfold dashboardTotals. rewrite !sumOfType_undefined by assumption. reflexivity.
    + unfold view, filtered. now apply js_filter_undefined.
  - intros Hu. split.
    + unfold dashboardTotals. rewrite !sumOfType_objects by assumption.
      eexists. split; [reflexivity|]. repeat split.
    + pose (g := fun t => match callback t with Normal b => b | TypeError => false end).
      exists (List.filter g (transactions s)). split; [|split].
      * unfold view, filtered. apply js_filter_objects; [|exact Hu].
        intros o. reflexivity.
      * apply filter_sublist.
      * intros x. rewrite !list_elem_of_In, List.filter_In. unfold g.
        split.
        -- intros [Hin Hg]. split; [exact Hin|].
           destruct (callback x) as [[|]|]; (reflexivity || discriminate).
        -- intros [Hin Hg]. split; [exact Hin|]. now rewrite Hg.
Qed.

Lemma views_need_transaction_objects_witness :
  dashboardTotals {| transactions := [undefined]; history := []; theme := "dark";
                     currency := "USD"; filters := filters Store.initialState;
                     persist := true |} = TypeError.
Proof.
  apply (proj1 (views_need_transaction_objects
                  {| transactions := [undefined]; history := []; theme := "dark";
                     currency := "USD"; filters := filters Store.initialState;
                     persist := true |}
                  (fun s => s) (fun _ => false) (fun _ => false) (fun _ => false)
                  (fun _ => false))).
  cbn. apply elem_of_cons. now left.
Defined.

Lemma filter_has_type_without_id (ty i : string) (l : list JsTx) :
  (forall t, obj t ∈ l -> tx_id t = i -> tx_type t <> ty) ->
  List.filter (has_type ty) (without_id i l) = List.filter (has_type ty) l.
Proof.
  unfold without_id. induction l as [|x l IH]; intros H; [reflexivity|].
  assert (IH' : List.filter (has_type ty) (List.filter (fun t => negb (has_id i t)) l)
                = List.filter (has_type ty) l).
  { apply IH. intros t Ht. apply H. apply elem_of_cons. now right. }
  cbn. destruct x as [|o]; cbn; [exact IH'|].
  destruct (String.eqb_spec (tx_id o) i) as [Hi|Hi]; cbn.
  - destruct (String.eqb_spec (tx_type o) ty) as [Hty|_]; [|exact IH'].
    destruct (H o); [apply elem_of_cons; now left | exact Hi | exact Hty].
  - now rewrite IH'.
Qed.

(** A total only depends on the transactions of its type: adding a
    transaction of another type, or deleting an id that only
    transactions of other types carry, leaves it as it was. *)
Theorem total_of_a_type_ignores_other_types :
  forall (ty : string) (txs : list JsTx),
    undefined ∉ txs ->
    (forall t, tx_type t <> ty -> sumOfType ty (obj t :: txs) = sumOfType ty txs)
    /\ (forall i, (forall t, obj t ∈ txs -> tx_id t = i -> tx_type t <> ty) ->
          sumOfType ty (without_id i txs) = sumOfType ty txs).
Proof.
  intros ty txs Hu. split.
  - intros t Ht. rewrite !sumOfType_objects; try assumption.
    + cbn. now destruct (String.eqb_spec (tx_type t) ty).
    + intros H. apply elem_of_cons in H as [H|H]; [discriminate | contradiction].
  - intros i Hi. rewrite !sumOfType_objects; try assumption.
    + now rewrite filter_has_type_without_id.
    + now apply filter_keeps_objects.
Qed.

Lemma total_of_a_type_ignores_other_types_witness :
  sumOfType "income" [obj coffee] = sumOfType "income" [].
Proof.
  apply (proj1 (total_of_a_type_ignores_other_types "income" [] (not_elem_of_nil _))).
  discriminate.
Defined.

(** ** The chart without data *)

Lemma totalOf_zeros (data : list Slice) :
  Forall (fun s => value s = 0%float) data -> Charts.totalOf data = 0%float.
Proof.
  unfold Charts.totalOf. induction 1 as [|s data Hs _ IH]; [reflexivity|].
  cbn. rewrite Hs. exact IH.
Qed.

(** When every value is zero, and so when there is no value at all, the
    container receives the "no data" paragraph. *)
Theorem all_zero_values_give_the_placeholder :
  forall (cos sin : float -> float) (containerId : string) (data : list Slice)
         (document : gmap string Markup) (old : Markup),
    Forall (fun s => value s = 0%float) data ->
    Charts.renderPieChart cos sin containerId data (<[containerId := old]> document)
    = <[containerId := Charts.noData]> document.
Proof.
  intros cos sin containerId data document old Hz.
  unfold Charts.renderPieChart.
  rewrite lookup_insert_eq, (totalOf_zeros _ Hz).
  change (Num.strict_eq 0 0) with true. cbn match.
  apply insert_insert_eq.
Qed.

Lemma all_zero_values_give_the_placeholder_witness :
  Charts.renderPieChart (fun x => x) (fun x => x) "chart-container"
    [{| label := "Food"; value := 0%float; color := "#fbbf24" |};
     {| label := "Rent"; value := 0%float; color := "#818cf8" |}]
    (<["chart-container" := []]> ∅)
  = <["chart-container" := Charts.noData]> ∅.
Proof.
  apply all_zero_values_give_the_placeholder.
  repeat constructor.
Defined.

(** ** The undo button *)

Lemma Store_history_stays_nonempty (s s' : State) (a : Action) :
  Store.expenseReducer s a = Normal s' -> history s <> [] -> history s' <> [].
Proof.
  intros Hr Hs. destruct a as [p|i|p|p|p|ty].
  2: { destruct (undefined_dec (transactions s)) as [H|H].
       - rewrite Store_delete_undefined in Hr by assumption. discriminate.
       - rewrite Store_delete_objects in Hr by assumption.
         injection Hr as <-. discriminate. }
  all: cbn in Hr; injection Hr as <-; cbn; (assumption || discriminate).
Qed.

Lemma Main_history_stays_nonempty (s s' : State) (a : Action) :
  Main.expenseReducer s a = Normal s' -> history s <> [] -> history s' <> [].
Proof.
  destruct a;
    try (rewrite Main_reducer_agrees by discriminate; apply Store_history_stays_nonempty).
  cbn. now intros [= <-].
Qed.

(** The undo button is written exactly when the history is not empty,
    and a history that is not empty never becomes empty: whatever is
    dispatched afterwards, undo included, [renderUndo] writes the button
    again. *)
Theorem undo_button_never_goes_away :
  forall (store : StoreObj) (actions : list Action)
         (document : gmap string Markup) (old : Markup) R,
    (R = Store.expenseReducer) \/ (R = Main.expenseReducer) ->
    (renderUndo (getState store) (<["undo-container" := old]> document)
     = Normal (<["undo-container" :=
                  match history (getState store) with
                  | [] => []
                  | _ :: _ => undoButton
                  end]> document))
    /\ (history (getState store) <> [] ->
        renderUndo (getState (dispatch_all R store actions))
          (<["undo-container" := old]> document)
        = Normal (<["undo-container" := undoButton]> document)).
Proof.
  intros store actions document old R HR.
  assert (Hrender : forall s,
            renderUndo s (<["undo-container" := old]> document)
            = Normal (<["undo-container" :=
                         match history s with [] => [] | _ :: _ => undoButton end]>
                        document)).
  { intros s. unfold renderUndo. rewrite lookup_insert_eq.
    destruct (history s); cbn; now rewrite insert_insert_eq. }
  split; [apply Hrender|].
  intros Hne. rewrite Hrender.
  assert (H : history (st_state (dispatch_all R store actions)) <> []).
  { apply (dispatch_all_invariant R (fun s => history s <> [])); [|exact Hne].
    destruct HR as [-> | ->]; intros s a s';
      [apply Store_history_stays_nonempty | apply Main_history_stays_nonempty]. }
  unfold getState. destruct (history (st_state (dispatch_all R store actions)));
    [contradiction | reflexivity].
Qed.

Lemma undo_button_never_goes_away_witness :
  renderUndo (getState (dispatch_all Store.expenseReducer (createStore coffee_added None)
                          [DELETE_TRANSACTION "k3x9q2m1z"; SET_THEME "light"]))
    (<["undo-container" := []]> ∅)
  = Normal (<["undo-container" := undoButton]> ∅).
Proof.
  apply (proj2 (undo_button_never_goes_away (createStore coffee_added None)
                  [DELETE_TRANSACTION "k3x9q2m1z"; SET_THEME "light"] ∅ []
                  Store.expenseReducer (or_introl eq_refl))).
  discriminate.
Defined.

(** ** Monthly groups *)

Section MonthlyFacts.
Variable monthKey : string -> string.

(** The entry of a key after the transactions of [l] were added to it. *)
Let accumulate (g0 : Group) (l : list JsTx) : Group :=
  fold_left (fun g t => match t with obj o => addAmount o g | undefined => g end) l g0.

Lemma groups_lookup (l : list JsTx) :
  undefined ∉ l ->
  forall acc, exists g,
    js_reduce (addToGroup monthKey) acc l = Normal g
    /\ forall key,
         g !! key
         = match acc !! key, List.filter (in_month monthKey key) l with
           | None, [] => None
           | o, l' => Some (accumulate (default {| g_income := 0; g_expense := 0 |} o) l')
           end.
Proof.
  induction l as [|x l IH]; intros Hl acc.
  - exists acc. split; [reflexivity|]. intros key. cbn. now destruct (acc !! key).
  - apply not_elem_of_cons in Hl as [Hx Hl].
    destruct x as [|o]; [congruence|].
    cbn [js_reduce addToGroup mbind completion_bind].
    match goal with
    | |- exists _, js_reduce _ ?acc1 _ = _ /\ _ => destruct (IH Hl acc1) as (g & Hg & Hkey)
    end.
    exists g. split; [exact Hg|]. intros key. rewrite Hkey. clear Hkey Hg.
    cbn [List.filter in_month].
    destruct (String.eqb_spec (monthKey (tx_date o)) key) as [<-|Hne].
    + rewrite lookup_alter_eq.
      destruct (acc !! monthKey (tx_date o)) as [g0|] eqn:Hacc.
      * rewrite Hacc. cbn. now destruct (List.filter _ l).
      * rewrite lookup_insert_eq. cbn. now destruct (List.filter _ l).
    + rewrite lookup_alter_ne by exact Hne.
      destruct (acc !! monthKey (tx_date o)) as [g0|] eqn:Hacc;
        [reflexivity | now rewrite lookup_insert_ne by exact Hne].
Qed.

Lemma accumulate_sums (l : list JsTx) (g0 : Group) :
  g_income (accumulate g0 l)
  = fold_left (fun acc t => (acc + amount_of t)%float)
      (List.filter (has_type "income") l) (g_income g0)
  /\ g_expense (accumulate g0 l)
     = fold_left (fun acc t => (acc + amount_of t)%float)
         (List.filter (has_type "expense") l) (g_expense g0).
Proof.
  revert g0. induction l as [|x l IH]; intros g0; [split; reflexivity|].
  destruct x as [|o]; [apply IH|].
  cbn [accumulate fold_left List.filter has_type].
  change (fold_left _ l ?g) with (accumulate g l).
  destruct (IH (addAmount o g0)) as [Hi He]. rewrite Hi, He. unfold addAmount.
  destruct (String.eqb_spec (tx_type o) "income") as [Hty|Hty].
  - rewrite Hty. cbn. split; reflexivity.
  - destruct (String.eqb_spec (tx_type o) "expense") as [Hty'|Hty'];
      cbn; split; reflexivity.
Qed.

Lemma filter_in_month_elem (key : string) (l : list JsTx) (x : JsTx) :
  List.In x (List.filter (in_month monthKey key) l) ->
  exists t, obj t ∈ l /\ monthKey (tx_date t) = key.
Proof.
  intros H. apply List.filter_In in H as [Hin Hm].
  destruct x as [|t]; [discriminate|].
  exists t. split; [now apply list_elem_of_In | now apply String.eqb_eq].
Qed.

Lemma filter_in_month_nil (key : string) (l : list JsTx) (t : Transaction) :
  List.filter (in_month monthKey key) l = [] ->
  obj t ∈ l -> monthKey (tx_date t) <> key.
Proof.
  intros Hnil Hin Hk.
  assert (H : List.In (obj t) (List.filter (in_month monthKey key) l)).
  { apply List.filter_In. split; [now apply list_elem_of_In|].
    cbn. now apply String.eqb_eq. }
  rewrite Hnil in H. contradiction.
Qed.

(** Over a list of transaction objects the groups are computed; there is
    a group for a month key exactly when some transaction has that key,
    so no group is empty, and its income and its expense are the sums
    from zero, in list order, of the amounts of the income and of the
    expense transactions with that key. *)
Theorem monthly_groups_come_from_transactions :
  forall (s : State),
    undefined ∉ transactions s ->
    exists g,
      groups monthKey s = Normal g
      /\ (forall key,
            is_Some (g !! key)
            <-> exists t, obj t ∈ transactions s /\ monthKey (tx_date t) = key)
      /\ (forall key grp,
            g !! key = Some grp ->
            g_income grp = month_sum monthKey "income" key (transactions s)
            /\ g_expense grp = month_sum monthKey "expense" key (transactions s)).
Proof.
  intros s Hu. unfold groups.
  destruct (groups_lookup _ Hu ∅) as (g & Hg & Hkey).
  exists g. split; [exact Hg|]. split.
  - intros key. rewrite Hkey, lookup_empty.
    destruct (List.filter (in_month monthKey key) (transactions s)) as [|x l'] eqn:E.
    + split; [intros [? ?]; discriminate|].
      intros (t & Hin & Hk). now destruct (filter_in_month_nil _ _ t E Hin).
    + split; [|now eexists]. intros _.
      apply (filter_in_month_elem key (transactions s) x). rewrite E. now left.
  - intros key grp. rewrite Hkey, lookup_empty. unfold month_sum.
    destruct (List.filter (in_month monthKey key) (transactions s)) as [|x l'];
      [discriminate|].
    intros [= <-].
    exact (accumulate_sums (x :: l') {| g_income := 0; g_expense := 0 |}).
Qed.

End MonthlyFacts.

Lemma monthly_groups_witness :
  exists g,
    groups (fun _ => "Jan 2024") coffee_added = Normal g
    /\ is_Some (g !! "Jan 2024").
Proof.
  destruct (monthly_groups_come_from_transactions (fun _ => "Jan 2024") coffee_added)
    as (g & Hg & Hdom & _).
  - cbn. intros H. apply list_elem_of_singleton in H. discriminate.
  - exists g. split; [exact Hg|]. apply Hdom. exists coffee.
    split; [cbn; apply elem_of_cons; now left | reflexivity].
Defined.

(** ** Listeners and writes that throw *)

Section ListenersThatThrow.
Variable R : State -> Action -> completion State.
Variable throws : Listener -> State -> bool.
Variable full : State -> bool.

Lemma notify_cases (s : State) (ls : list Listener) :
  (Notifying.notify throws s ls = (ls, false)
   /\ forall l, l ∈ ls -> throws l s = false)
  \/ (exists before l rest,
        ls = before ++ l :: rest
        /\ (forall l', l' ∈ before -> throws l' s = false)
        /\ throws l s = true
        /\ Notifying.notify throws s ls = (before ++ [l], true)).
Proof.
  induction ls as [|l ls IH].
  - left. split; [reflexivity|]. intros l H. now apply not_elem_of_nil in H.
  - cbn. destruct (throws l s) eqn:Hl.
    + right. exists [], l, ls. split; [reflexivity|].
      split; [intros l' H; now apply not_elem_of_nil in H|]. now split.
    + destruct IH as [[Hn Hq]|(before & l0 & rest & Hls & Hb & Hl0 & Hn)]; rewrite Hn.
      * left. split; [reflexivity|].
        intros l' H. apply elem_of_cons in H as [->|H]; [exact Hl | now apply Hq].
      * right. exists (l :: before), l0, rest. split; [cbn; now rewrite Hls|].
        split; [|now split].
        intros l' H. apply elem_of_cons in H as [->|H]; [exact Hl | now apply Hb].
Qed.

(** The shape of every dispatch. *)
Lemma dispatch_cases (store : StoreObj) (a : Action) :
  (R (st_state store) a = TypeError
   /\ Notifying.dispatch R throws full store a
      = {| Notifying.after := store; Notifying.threw := true |})
  \/ exists s' called t,
       R (st_state store) a = Normal s'
       /\ Notifying.notify throws s' (st_listeners store) = (called, t)
       /\ Notifying.after (Notifying.dispatch R throws full store a)
          = {| st_state := s';
               st_listeners := st_listeners store;
               st_called := st_called store ++ called;
               st_saved := if negb t && persist s' && negb (full s')
                           then Some s' else st_saved store |}
       /\ Notifying.threw (Notifying.dispatch R throws full store a)
          = t || (persist s' && full s').
Proof.
  unfold Notifying.dispatch. destruct (R (st_state store) a) as [s'|] eqn:Hr.
  - right. destruct (Notifying.notify throws s' (st_listeners store)) as [called t] eqn:Hn.
    exists s', called, t. split; [reflexivity|]. split; [exact Hn|].
    destruct t, (persist s'), (full s'); split; reflexivity.
  - left. now split.
Qed.

(** Whatever the listeners and the storage do, a dispatch leaves the
    state that the dispatch of a store with returning listeners leaves,
    and the same listener list. *)
Lemma dispatch_state_whatever_listeners (store : StoreObj) (a : Action) :
  st_state (Notifying.after (Notifying.dispatch R throws full store a))
  = st_state (dispatch_event R store a)
  /\ st_listeners (Notifying.after (Notifying.dispatch R throws full store a))
     = st_listeners store.
Proof.
  destruct (dispatch_cases store a) as [[Hr Ho]|(s' & called & t & Hr & _ & Ho & _)];
    rewrite Ho; unfold dispatch_event, dispatch; rewrite Hr; split; reflexivity.
Qed.

Lemma dispatch_reducer_returns (store : StoreObj) (a : Action) (s' : State) :
  R (st_state store) a = Normal s' ->
  st_state (Notifying.after (Notifying.dispatch R throws full store a)) = s'.
Proof.
  intros Hr.
  destruct (dispatch_cases store a) as [[Hr' _]|(s1 & called & t & Hr' & _ & Ho & _)];
    [congruence|].
  rewrite Ho. cbn. congruence.
Qed.

(** With listeners that return and writes that succeed,
    [Notifying.dispatch] is [dispatch]. *)
Lemma dispatch_quiet (store : StoreObj) (a : Action) :
  (forall l s, l ∈ st_listeners store -> throws l s = false) ->
  (forall s, full s = false) ->
  Notifying.dispatch R throws full store a
  = match dispatch R store a with
    | Normal store' => {| Notifying.after := store'; Notifying.threw := false |}
    | TypeError => {| Notifying.after := store; Notifying.threw := true |}
    end.
Proof.
  intros Hq Hw. unfold Notifying.dispatch, dispatch.
  destruct (R (st_state store) a) as [s'|]; [|reflexivity]. cbn.
  destruct (notify_cases s' (st_listeners store))
    as [[Hn _]|(before & l & rest & Hls & _ & Hl & _)].
  - rewrite Hn, Hw. now destruct (persist s').
  - rewrite (Hq l s') in Hl; [discriminate|].
    rewrite Hls. apply elem_of_app. right. apply elem_of_cons. now left.
Qed.

(** A property of the store kept by every dispatch is kept by a sequence
    of them. *)
Lemma dispatch_all_keeps (P : StoreObj -> Prop) (ls : list Listener) :
  (forall store a,
     st_listeners store = ls -> P store ->
     P (Notifying.after (Notifying.dispatch R throws full store a))) ->
  forall actions store,
    st_listeners store = ls -> P store ->
    P (Notifying.dispatch_all R throws full store actions).
Proof.
  intros HP. induction actions as [|a actions IH]; intros store Hls H; [exact H|].
  unfold Notifying.dispatch_all in *. cbn [fold_left].
  apply IH; [|now apply HP].
  now rewrite (proj2 (dispatch_state_whatever_listeners store a)).
Qed.

End ListenersThatThrow.


Lemma both_reducers_return (R : State -> Action -> completion State) (s : State) (a : Action) :
  (R = Store.expenseReducer) \/ (R = Main.expenseReducer) ->
  (forall i, a <> DELETE_TRANSACTION i) ->
  exists s', R s a = Normal s'.
Proof.
  intros HR Ha.
  destruct HR as [-> | ->];
    [destruct (Store_reducer_cases s a) as [[H _]|[_ [[i Hi] _]]]
    |destruct (Main_reducer_cases s a) as [[H _]|[_ [[i Hi] _]]]];
    try exact H; now destruct (Ha i).
Qed.

Lemma both_reducers_persist (R : State -> Action -> completion State) :
  (R = Store.expenseReducer) \/ (R = Main.expenseReducer) ->
  forall s a s', R s a = Normal s' -> persist s' = persist s.
Proof.
  intros [-> | ->] s a s'; [apply Store_persist_kept | apply Main_persist_kept].
Qed.

(** A dispatch whose reducer returns assigns the state and calls the
    listeners in subscription order, stopping at the first one that
    throws: the listeners before it were called, the ones after it are
    not, and the dispatch throws.  When none throws, each is called once,
    and the dispatch throws only if the write to [localStorage] does.  A
    dispatch whose reducer throws calls none and changes nothing.  Calls
    are not coalesced: with listeners that return, after a sequence of
    actions none of which is a deletion there were as many rounds as
    actions. *)
Theorem notification_stops_at_the_first_exception :
  forall (store : StoreObj) R (throws : Listener -> State -> bool) (full : State -> bool),
    (R = Store.expenseReducer) \/ (R = Main.expenseReducer) ->
    (forall a state',
       R (st_state store) a = Normal state' ->
       let o := Notifying.dispatch R throws full store a in
       getState (Notifying.after o) = state'
       /\ (((forall l, l ∈ st_listeners store -> throws l state' = false)
            /\ st_called (Notifying.after o) = st_called store ++ st_listeners store
            /\ Notifying.threw o = persist state' && full state')
           \/ (exists before l rest,
                 st_listeners store = before ++ l :: rest
                 /\ (forall l', l' ∈ before -> throws l' state' = false)
                 /\ throws l state' = true
                 /\ st_called (Notifying.after o) = st_called store ++ before ++ [l]
                 /\ Notifying.threw o = true)))
    /\ (forall a,
          R (st_state store) a = TypeError ->
          Notifying.dispatch R throws full store a
          = {| Notifying.after := store; Notifying.threw := true |})
    /\ (forall actions,
          (forall l s, l ∈ st_listeners store -> throws l s = false) ->
          Forall (fun a => forall i, a <> DELETE_TRANSACTION i) actions ->
          st_called (Notifying.dispatch_all R throws full store actions)
          = st_called store ++ concat (replicate (length actions) (st_listeners store))).
Proof.
  intros store R throws full HR. split; [|split].
  - intros a state' Hr o.
    destruct (dispatch_cases R throws full store a)
      as [[Hr' _]|(s' & called & t & Hr' & Hn & Ho & Ht)]; [congruence|].
    rewrite Hr in Hr'. injection Hr' as <-. unfold o, getState. rewrite Ho, Ht.
    split; [reflexivity|]. cbn [st_called].
    destruct (notify_cases throws state' (st_listeners store))
      as [[Hn' Hq]|(before & l & rest & Hls & Hb & Hl & Hn')];
      rewrite Hn in Hn'; injection Hn' as -> ->.
    + left. now repeat split.
    + right. exists before, l, rest. now repeat split.
  - intros a Hr.
    destruct (dispatch_cases R throws full store a)
      as [[_ Ho]|(s' & called & t & Hr' & _)]; [exact Ho | congruence].
  - intros actions Hq Hall. revert store Hq.
    induction Hall as [|a actions Ha _ IH]; intros store Hq.
    + cbn. now rewrite app_nil_r.
    + unfold Notifying.dispatch_all in *. cbn [fold_left].
      destruct (both_reducers_return R (st_state store) a HR Ha) as [s' Hs'].
      destruct (dispatch_cases R throws full store a)
        as [[Hr' _]|(s1 & called & t & Hr' & Hn & Ho & _)]; [congruence|].
      destruct (notify_cases throws s1 (st_listeners store))
        as [[Hn' _]|(before & l & rest & Hls & _ & Hl & _)].
      * rewrite Hn in Hn'. injection Hn' as -> ->.
        rewrite IH; rewrite Ho; cbn [st_called st_listeners]; [|exact Hq].
        cbn. now rewrite <- app_assoc.
      * rewrite (Hq l s1) in Hl; [discriminate|].
        rewrite Hls. apply elem_of_app. right. apply elem_of_cons. now left.
Qed.

Lemma notification_witness :
  st_called (Notifying.dispatch_all Store.expenseReducer (fun _ _ => false) (fun _ => true)
               (subscribe (subscribe (createStore Store.initialState None) 1) 2)
               [ADD_TRANSACTION (obj coffee); SET_THEME "light"])
  = [1; 2; 1; 2].
Proof.
  rewrite (proj2 (proj2 (notification_stops_at_the_first_exception
                           (subscribe (subscribe (createStore Store.initialState None) 1) 2)
                           Store.expenseReducer (fun _ _ => false) (fun _ => true)
                           (or_introl eq_refl)))).
  - reflexivity.
  - reflexivity.
  - repeat constructor; discriminate.
Defined.

(** The write to [localStorage] follows the listeners.  A dispatch that
    returns, in a store whose persistence flag is set, leaves the current
    state as the state last written; a dispatch that throws writes
    nothing, also when the exception is a listener's or the storage's and
    the state was already replaced; with the flag cleared nothing is
    written.  With listeners that return, writes that succeed and the
    flag set, the state last written is the current state after every
    further sequence of dispatches. *)
Theorem saved_state_follows_returning_dispatches :
  forall (store : StoreObj) (a : Action) R
         (throws : Listener -> State -> bool) (full : State -> bool),
    (R = Store.expenseReducer) \/ (R = Main.expenseReducer) ->
    let o := Notifying.dispatch R throws full store a in
    (Notifying.threw o = false -> persist (st_state store) = true ->
     st_saved (Notifying.after o) = Some (st_state (Notifying.after o)))
    /\ (Notifying.threw o = true -> st_saved (Notifying.after o) = st_saved store)
    /\ (persist (st_state store) = false ->
        st_saved (Notifying.after o) = st_saved store)
    /\ (forall state' l,
          R (st_state store) a = Normal state' ->
          l ∈ st_listeners store -> throws l state' = true ->
          Notifying.threw o = true
          /\ st_state (Notifying.after o) = state'
          /\ st_saved (Notifying.after o) = st_saved store)
    /\ (forall state',
          R (st_state store) a = Normal state' ->
          persist state' = true -> full state' = true ->
          Notifying.threw o = true
          /\ st_state (Notifying.after o) = state'
          /\ st_saved (Notifying.after o) = st_saved store)
    /\ (forall actions,
          (forall l s, l ∈ st_listeners store -> throws l s = false) ->
          (forall s, full s = false) ->
          persist (st_state store) = true ->
          Notifying.threw o = false ->
          st_saved (Notifying.dispatch_all R throws full (Notifying.after o) actions)
          = Some (st_state (Notifying.dispatch_all R throws full (Notifying.after o) actions))).
Proof.
  intros store a R throws full HR o.
  pose proof (both_reducers_persist R HR) as Hp.
  assert (Hstep : forall st b,
            Notifying.threw (Notifying.dispatch R throws full st b) = false ->
            persist (st_state st) = true ->
            persist (st_state (Notifying.after (Notifying.dispatch R throws full st b))) = true
            /\ st_saved (Notifying.after (Notifying.dispatch R throws full st b))
               = Some (st_state (Notifying.after (Notifying.dispatch R throws full st b)))).
  { intros st b Ht Hflag.
    destruct (dispatch_cases R throws full st b)
      as [[_ Ho]|(s' & called & t & Hr & _ & Ho & Hth)].
    - rewrite Ho in Ht. discriminate.
    - rewrite Hth in Ht. rewrite Ho. cbn.
      rewrite (Hp _ _ _ Hr), Hflag in *.
      destruct t; [discriminate|]. destruct (full s'); [discriminate|]. now split. }
  assert (Hthrown : Notifying.threw o = true ->
                    st_saved (Notifying.after o) = st_saved store).
  { intros Ht. unfold o in *.
    destruct (dispatch_cases R throws full store a)
      as [[_ Ho]|(s' & called & t & Hr & _ & Ho & Hth)].
    - now rewrite Ho.
    - rewrite Hth in Ht. rewrite Ho. cbn.
      destruct t, (persist s'), (full s'); try reflexivity; discriminate. }
  split; [|split; [|split; [|split; [|split]]]].
  - intros Ht Hflag. exact (proj2 (Hstep store a Ht Hflag)).
  - exact Hthrown.
  - intros Hflag. unfold o.
    destruct (dispatch_cases R throws full store a)
      as [[_ Ho]|(s' & called & t & Hr & _ & Ho & _)]; rewrite Ho; [reflexivity|].
    cbn. rewrite (Hp _ _ _ Hr), Hflag. now destruct t.
  - intros state' l Hr Hl Hthrows.
    assert (Ht : Notifying.threw o = true).
    { unfold o.
      destruct (dispatch_cases R throws full store a)
        as [[Hr' _]|(s' & called & t & Hr' & Hn & _ & Hth)]; [congruence|].
      rewrite Hr in Hr'. injection Hr' as <-. rewrite Hth.
      destruct (notify_cases throws state' (st_listeners store))
        as [[_ Hq]|(before & l0 & rest & _ & _ & _ & Hn')].
      - rewrite (Hq l Hl) in Hthrows. discriminate.
      - rewrite Hn in Hn'. now injection Hn' as _ ->. }
    split; [exact Ht|]. split; [|exact (Hthrown Ht)].
    now apply dispatch_reducer_returns.
  - intros state' Hr Hflag Hfull.
    assert (Ht : Notifying.threw o = true).
    { unfold o.
      destruct (dispatch_cases R throws full store a)
        as [[Hr' _]|(s' & called & t & Hr' & _ & _ & Hth)]; [congruence|].
      rewrite Hr in Hr'. injection Hr' as <-. rewrite Hth, Hflag, Hfull.
      now destruct t. }
    split; [exact Ht|]. split; [|exact (Hthrown Ht)].
    now apply dispatch_reducer_returns.
  - intros actions Hq Hw Hflag Ht.
    apply (dispatch_all_keeps R throws full
             (fun st => persist (st_state st) = true /\ st_saved st = Some (st_state st))
             (st_listeners store)).
    + intros st b Hls [Hf Hs].
      destruct (Notifying.threw (Notifying.dispatch R throws full st b)) eqn:E.
      * destruct (dispatch_cases R throws full st b)
          as [[_ Ho]|(s' & called & t & Hr & Hn & Ho & Hth)].
        -- rewrite Ho. now split.
        -- rewrite Hth, Hw, andb_false_r, orb_false_r in E. subst t.
           destruct (notify_cases throws s' (st_listeners st))
             as [[Hn' _]|(before & l & rest & Hl & _ & Hthr & _)].
           ++ rewrite Hn in Hn'. discriminate.
           ++ rewrite (Hq l s') in Hthr; [discriminate|].
              rewrite <- Hls, Hl. apply elem_of_app. right. apply elem_of_cons. now left.
      * exact (Hstep st b E Hf).
    + exact (proj2 (dispatch_state_whatever_listeners R throws full store a)).
    + exact (Hstep store a Ht Hflag).
Qed.

Lemma saved_state_witness :
  st_saved (Notifying.after
              (Notifying.dispatch Store.expenseReducer
                 (fun _ s => negb (Nat.eqb (length (transactions s)) 0)) (fun _ => false)
                 (subscribe (createStore Store.initialState None) 1)
                 (ADD_TRANSACTION (obj coffee))))
  = None.
Proof.
  destruct (proj1 (proj2 (proj2 (proj2 (saved_state_follows_returning_dispatches
              (subscribe (createStore Store.initialState None) 1)
              (ADD_TRANSACTION (obj coffee)) Store.expenseReducer
              (fun _ s => negb (Nat.eqb (length (transactions s)) 0)) (fun _ => false)
              (or_introl eq_refl))))) _ 1 eq_refl)
    as (_ & _ & H).
  - cbn. apply elem_of_cons. now left.
  - reflexivity.
  - exact H.
Defined.






